(** * Background resolver ([src/lib/backgroundContext.tsx])

    A shallow embedding of the four-tier background URL resolver
    (in-memory, session storage, persisted storage, freshly generated)
    and of the provider's three actions, with the properties of its
    specification stated over it.

    Modelling choices, each read off the source:
    - The hosting page is a record [state]: the provider's two [useState]
      cells, the module-level variable, the [window] (absent outside a
      browser), the clock read by [Date.now()], the image backend, and a
      trace of what the code does to the outside (image load requests and
      [console.error] lines).
    - A [Storage] is a finite map from keys to values that may refuse
      every access (storage disabled) or refuse a write (quota).
    - A value of the persisted storage is kept as what [JSON.parse] makes
      of its text: a [BackgroundCache] record (the type the source gives
      the parse result) or a text the parser rejects.
    - Code runs in a state-and-exception monad [M]; [try ... catch] keeps
      the effects done before the throw, as JavaScript does.
    - Every action runs to completion before the next one starts: the
      awaited image load only moves the clock. *)

From stdpp Require Import base strings gmap pretty.
From Stdlib Require Import ZArith Lia.

Open Scope Z_scope.

(** ** Constants (lines 12-16) *)

Definition BG_CACHE_KEY : string := "app_background_cache".
Definition BG_SESSION_KEY : string := "app_background_session".
Definition BG_GLOBAL_KEY : string := "app_background_global".
Definition BG_EXPIRE_TIME : Z := 24 * 60 * 60 * 1000.
Definition BG_LOAD_TIMEOUT : Z := 10000.

(** ** Data (lines 18-23) *)

Record BackgroundCache := mkCache { url : string; timestamp : Z }.

(** A string held by the persisted storage, seen through [JSON.parse]. *)
Inductive stored :=
  | Unparsable (text : string)
  | Parsed (data : BackgroundCache).

Inductive exn :=
  | ReferenceError
  | SecurityError
  | QuotaExceededError
  | SyntaxError.

Inductive Storage (V : Type) :=
  | Blocked
  | Store (items : gmap string V) (fits : gmap string V → string → V → bool).
Arguments Blocked {V}.
Arguments Store {V} items fits.

Record browser := mkBrowser {
  sessionStorage : Storage string;
  localStorage : Storage stored
}.

(** What the image backend does with a load request: fire [onload] or
    [onerror] after some milliseconds, or stay silent. *)
Inductive img_outcome :=
  | Loads (delay : N)
  | Errors (delay : N)
  | Silent.

Inductive event :=
  | Preload (at_time : Z) (src : string) (valid : bool)
  | ConsoleError (message : string) (error : exn).

Record state := mkState {
  backgroundUrl : string;
  isLoaded : bool;
  globalBackgroundUrl : option string;
  window : option browser;
  clock : Z;
  backend : Z → string → img_outcome;
  trace : list event
}.

Definition with_backgroundUrl (u : string) (s : state) : state :=
  mkState u (isLoaded s) (globalBackgroundUrl s) (window s) (clock s)
          (backend s) (trace s).
Definition with_isLoaded (b : bool) (s : state) : state :=
  mkState (backgroundUrl s) b (globalBackgroundUrl s) (window s) (clock s)
          (backend s) (trace s).
Definition with_global (g : option string) (s : state) : state :=
  mkState (backgroundUrl s) (isLoaded s) g (window s) (clock s)
          (backend s) (trace s).
Definition with_window (w : option browser) (s : state) : state :=
  mkState (backgroundUrl s) (isLoaded s) (globalBackgroundUrl s) w (clock s)
          (backend s) (trace s).
Definition with_clock (t : Z) (s : state) : state :=
  mkState (backgroundUrl s) (isLoaded s) (globalBackgroundUrl s) (window s) t
          (backend s) (trace s).
Definition emit (e : event) (s : state) : state :=
  mkState (backgroundUrl s) (isLoaded s) (globalBackgroundUrl s) (window s)
          (clock s) (backend s) (trace s ++ [e]).

(** ** The monad of the code: state and exceptions *)

Inductive result (A : Type) :=
  | Ok (a : A)
  | Throw (e : exn).
Arguments Ok {A} a.
Arguments Throw {A} e.

Definition M (A : Type) : Type := state → result A * state.

#[global] Instance M_ret : MRet M := λ A a s, (Ok a, s).
#[global] Instance M_bind : MBind M := λ A B f m s,
  match m s with
  | (Ok a, s') => f a s'
  | (Throw e, s') => (Throw e, s')
  end.

Definition throw {A} (e : exn) : M A := λ s, (Throw e, s).

Definition try_catch {A} (body : M A) (handler : exn → M A) : M A := λ s,
  match body s with
  | (Ok a, s') => (Ok a, s')
  | (Throw e, s') => handler e s'
  end.

Definition get {A} (f : state → A) : M A := λ s, (Ok (f s), s).
Definition modify (f : state → state) : M () := λ s, (Ok (), f s).

(** ** The runtime the code calls *)

Definition Date_now : M Z := get clock.

(** [typeof window === 'undefined'] *)
Definition window_undefined : M bool :=
  get (λ s, if window s is Some _ then false else true).

Definition the_window : M browser := λ s,
  match window s with
  | Some w => (Ok w, s)
  | None => (Throw ReferenceError, s)
  end.

Definition storage_getItem {V} (st : Storage V) (k : string) : result (option V) :=
  match st with
  | Blocked => Throw SecurityError
  | Store items _ => Ok (items !! k)
  end.

Definition storage_setItem {V} (st : Storage V) (k : string) (v : V)
  : result (Storage V) :=
  match st with
  | Blocked => Throw SecurityError
  | Store items fits =>
      if fits items k v then Ok (Store (<[k:=v]> items) fits)
      else Throw QuotaExceededError
  end.

Definition storage_removeItem {V} (st : Storage V) (k : string)
  : result (Storage V) :=
  match st with
  | Blocked => Throw SecurityError
  | Store items fits => Ok (Store (delete k items) fits)
  end.

Definition put_session (w : browser) (st : Storage string) : browser :=
  mkBrowser st (localStorage w).
Definition put_local (w : browser) (st : Storage stored) : browser :=
  mkBrowser (sessionStorage w) st.

Definition lift {A} (r : result A) : M A := λ s, (r, s).

Definition sessionStorage_getItem (k : string) : M (option string) :=
  w ← the_window; lift (storage_getItem (sessionStorage w) k).

Definition sessionStorage_setItem (k v : string) : M () :=
  w ← the_window;
  st ← lift (storage_setItem (sessionStorage w) k v);
  modify (with_window (Some (put_session w st))).

Definition localStorage_getItem (k : string) : M (option stored) :=
  w ← the_window; lift (storage_getItem (localStorage w) k).

Definition localStorage_setItem (k : string) (v : stored) : M () :=
  w ← the_window;
  st ← lift (storage_setItem (localStorage w) k v);
  modify (with_window (Some (put_local w st))).

Definition localStorage_removeItem (k : string) : M () :=
  w ← the_window;
  st ← lift (storage_removeItem (localStorage w) k);
  modify (with_window (Some (put_local w st))).

(** [JSON.parse] of a stored text, typed as the source types it
    ([const data: BackgroundCache]); [JSON.stringify] of a record of a
    string and an integer is a text that parses back to that record, so
    the model keeps the record. *)
Definition JSON_parse (v : stored) : M BackgroundCache :=
  match v with
  | Unparsable _ => throw SyntaxError
  | Parsed data => mret data
  end.

Definition JSON_stringify (data : BackgroundCache) : stored := Parsed data.

Definition console_error (message : string) (e : exn) : M () :=
  modify (emit (ConsoleError message e)).

(** JavaScript truthiness of a [string | null]: neither [null] nor ['']. *)
Definition truthy (o : option string) : bool :=
  match o with
  | Some (String _ _) => true
  | _ => false
  end.

(** [!cached] on the text read from the persisted storage: a text that
    parses is never empty. *)
Definition falsy_text (o : option stored) : bool :=
  match o with
  | None | Some (Unparsable "") => true
  | Some _ => false
  end.

(** ** The source, function by function *)

(** Lines 25-31. *)
Definition getGlobalBackground : M (option string) := get globalBackgroundUrl.

Definition setGlobalBackground (u : string) : M () :=
  modify (with_global (Some u)).

(** Lines 33-41. *)
Definition getSessionBackground : M (option string) :=
  nowin ← window_undefined;
  if nowin : bool then mret None
  else try_catch (sessionStorage_getItem BG_SESSION_KEY) (λ _, mret None).

(** Lines 43-51. *)
Definition setSessionBackground (u : string) : M () :=
  nowin ← window_undefined;
  if nowin : bool then mret ()
  else try_catch (sessionStorage_setItem BG_SESSION_KEY u)
                 (console_error "Failed to set session background:").

(** Lines 53-72. *)
Definition getCachedBackground : M (option string) :=
  nowin ← window_undefined;
  if nowin : bool then mret None
  else try_catch
    (cached ← localStorage_getItem BG_CACHE_KEY;
     match cached with
     | Some text =>
         if falsy_text cached then mret None
         else
           data ← JSON_parse text;
           now ← Date_now;
           if now - timestamp data >? BG_EXPIRE_TIME then
             localStorage_removeItem BG_CACHE_KEY;; mret None
           else mret (Some (url data))
     | None => mret None
     end)
    (λ _, mret None).

(** Lines 74-86. *)
Definition setCachedBackground (u : string) : M () :=
  nowin ← window_undefined;
  if nowin : bool then mret ()
  else try_catch
    (now ← Date_now;
     let data := {| url := u; timestamp := now |} in
     localStorage_setItem BG_CACHE_KEY (JSON_stringify data))
    (console_error "Failed to cache background:").

(** Lines 88-92: the template literal prints the number in decimal. *)
Definition seed_url (t : Z) : string :=
  "https://loliapi.com/acg/?seed=" +:+ pretty t.

Definition fetchNewBackground : M string :=
  timestamp ← Date_now;
  mret (seed_url timestamp).

(** Lines 95-115. The promise resolves once, with whichever of [onload],
    [onerror] and the timer comes first; the awaiting caller resumes when
    it does, so the clock has moved by then. Which callback comes first is
    decided here by the delay the backend reports, and the timer is taken
    to fire on time; the properties below rely on the verdict and on time
    not running backwards, not on the 10000 ms line. An [Image]
    constructor is taken to exist, as in every browser. *)
Definition settle (o : img_outcome) : bool * Z :=
  match o with
  | Loads d =>
      if Z.of_N d <? BG_LOAD_TIMEOUT then (true, Z.of_N d)
      else (false, BG_LOAD_TIMEOUT)
  | Errors d =>
      if Z.of_N d <? BG_LOAD_TIMEOUT then (false, Z.of_N d)
      else (false, BG_LOAD_TIMEOUT)
  | Silent => (false, BG_LOAD_TIMEOUT)
  end.

Definition preloadImage (u : string) : M bool := λ s,
  let '(valid, elapsed) := settle (backend s (clock s) u) in
  (Ok valid, with_clock (clock s + elapsed) (emit (Preload (clock s) u valid) s)).

(** Lines 118-119: the provider's state when it mounts. *)
Definition mount (s : state) : state :=
  with_isLoaded false (with_backgroundUrl "" s).

Definition setBackgroundUrl (u : string) : M () := modify (with_backgroundUrl u).
Definition setIsLoaded (b : bool) : M () := modify (with_isLoaded b).

(** Lines 122-170, in the order of the source. The three blocks after
    the early returns are named; [finalUrl] is the local variable they
    pass on. *)

(** Lines 143-152. *)
Definition validateCached (cached : option string) : M string :=
  if truthy cached then
    isValid ← preloadImage (default "" cached);
    if isValid : bool then mret (default "" cached)
    else localStorage_removeItem BG_CACHE_KEY;; mret ""
  else mret "".

(** Lines 155-162. *)
Definition generateIfUnresolved (finalUrl : string) : M string :=
  if truthy (Some finalUrl) then mret finalUrl
  else
    newUrl ← fetchNewBackground;
    isValid ← preloadImage newUrl;
    if isValid : bool then setCachedBackground newUrl;; mret newUrl
    else mret finalUrl.

(** Lines 165-169. *)
Definition commitFinal (finalUrl : string) : M () :=
  if truthy (Some finalUrl) then
    setBackgroundUrl finalUrl;;
    setGlobalBackground finalUrl;;
    setSessionBackground finalUrl
  else mret ().

Definition initBackground : M () :=
  globalUrl ← getGlobalBackground;
  if truthy globalUrl then setBackgroundUrl (default "" globalUrl)
  else
    sessionUrl ← getSessionBackground;
    if truthy sessionUrl then
      setBackgroundUrl (default "" sessionUrl);;
      setGlobalBackground (default "" sessionUrl)
    else
      cached ← getCachedBackground;
      finalUrl ← validateCached cached;
      finalUrl ← generateIfUnresolved finalUrl;
      commitFinal finalUrl.

(** Lines 175-177. *)
Definition setLoaded : M () := setIsLoaded true.

(** Lines 179-190. *)
Definition refreshBackground : M () :=
  newUrl ← fetchNewBackground;
  isValid ← preloadImage newUrl;
  if isValid : bool then
    setBackgroundUrl newUrl;;
    setGlobalBackground newUrl;;
    setSessionBackground newUrl;;
    setCachedBackground newUrl;;
    setIsLoaded false
  else mret ().

(** ** Views of the three tiers and of the environment *)

Definition tier_of {V} (st : Storage V) (k : string) : option V :=
  match st with
  | Blocked => None
  | Store items _ => items !! k
  end.

Definition memory_tier (s : state) : option string := globalBackgroundUrl s.

Definition session_tier (s : state) : option string :=
  w ← window s; tier_of (sessionStorage w) BG_SESSION_KEY.

Definition persisted_tier (s : state) : option stored :=
  w ← window s; tier_of (localStorage w) BG_CACHE_KEY.

(** A tier holds a URL. *)
Definition persisted_url (s : state) : option string :=
  match persisted_tier s with
  | Some (Parsed data) => Some (url data)
  | _ => None
  end.

(** Would [setItem] be accepted now? *)
Definition accepts {V} (st : Storage V) (k : string) (v : V) : bool :=
  match st with
  | Blocked => false
  | Store items fits => fits items k v
  end.

Definition session_accepts (u : string) (s : state) : bool :=
  match window s with
  | Some w => accepts (sessionStorage w) BG_SESSION_KEY u
  | None => false
  end.

Definition persisted_accepts (data : BackgroundCache) (s : state) : bool :=
  match window s with
  | Some w => accepts (localStorage w) BG_CACHE_KEY (Parsed data)
  | None => false
  end.

(** The verdict of a preload issued now, and the time it takes. *)
Definition verdict (u : string) (s : state) : bool :=
  fst (settle (backend s (clock s) u)).
Definition elapsed (u : string) (s : state) : Z :=
  snd (settle (backend s (clock s) u)).

(** The image requests made so far, in order. *)
Definition is_preload (e : event) : bool :=
  match e with
  | Preload _ _ _ => true
  | ConsoleError _ _ => false
  end.

Definition requests (s : state) : list event := List.filter is_preload (trace s).

(** Everything but the clock and the trace. *)
Definition same_tiers (s s' : state) : Prop :=
  backgroundUrl s' = backgroundUrl s ∧ isLoaded s' = isLoaded s ∧
  globalBackgroundUrl s' = globalBackgroundUrl s ∧ window s' = window s.

(** ** The actions of the provider, as a transition system *)

Inductive action := Init | SetLoaded | Refresh.

Definition run (a : action) : M () :=
  match a with
  | Init => initBackground
  | SetLoaded => setLoaded
  | Refresh => refreshBackground
  end.

Definition after (a : action) (s : state) : state := snd (run a s).

(** A further provider mounts on the same page and resolves. The state
    carries the [useState] cells of one provider, the one that acts: after
    [remount] they are the cells of the newly mounted one. *)
Definition remount (s : state) : state := after Init (mount s).

(** ** The storage effects in closed form

    What the four accessors do to a state, written without the monad;
    the equations below relate them to the code. *)

Definition write_session (u : string) (s : state) : state :=
  match window s with
  | Some w =>
      match storage_setItem (sessionStorage w) BG_SESSION_KEY u with
      | Ok st => with_window (Some (put_session w st)) s
      | Throw e => emit (ConsoleError "Failed to set session background:" e) s
      end
  | None => s
  end.

Definition write_cached (u : string) (s : state) : state :=
  match window s with
  | Some w =>
      match storage_setItem (localStorage w) BG_CACHE_KEY
              (Parsed {| url := u; timestamp := clock s |}) with
      | Ok st => with_window (Some (put_local w st)) s
      | Throw e => emit (ConsoleError "Failed to cache background:" e) s
      end
  | None => s
  end.

Definition remove_persisted (s : state) : state :=
  match window s with
  | Some w =>
      match storage_removeItem (localStorage w) BG_CACHE_KEY with
      | Ok st => with_window (Some (put_local w st)) s
      | Throw _ => s
      end
  | None => s
  end.

Definition expired (data : BackgroundCache) (s : state) : bool :=
  clock s - timestamp data >? BG_EXPIRE_TIME.

Definition cached_read (s : state) : option string :=
  match persisted_tier s with
  | Some (Parsed data) => if expired data s then None else Some (url data)
  | _ => None
  end.

Definition cached_sweep (s : state) : state :=
  match persisted_tier s with
  | Some (Parsed data) => if expired data s then remove_persisted s else s
  | _ => s
  end.

Definition preloaded (u : string) (s : state) : state :=
  with_clock (clock s + elapsed u s) (emit (Preload (clock s) u (verdict u s)) s).

(** Lines 165-169: the resolved URL is locked into the page, the memory
    and the session. *)
Definition lock (u : string) (s : state) : state :=
  write_session u (with_global (Some u) (with_backgroundUrl u s)).

(** Does the persisted tier yield a URL that passes its preload? *)
Definition cached_usable (s : state) : bool :=
  match cached_read s with
  | Some c => truthy (Some c) && verdict c s
  | None => false
  end.

(** The state in which generation starts when it does not. *)
Definition cached_miss (s : state) : state :=
  match cached_read s with
  | Some c => if truthy (Some c) then remove_persisted (preloaded c s) else s
  | None => cached_sweep s
  end.

(** Lines 184-188. *)
Definition refreshed (u : string) (s : state) : state :=
  with_isLoaded false
    (write_cached u (write_session u (with_global (Some u) (with_backgroundUrl u s)))).

(** ** The five ways a resolution pass can end *)

Inductive resolution (s : state) : state → Prop :=
  | FromMemory g :
      memory_tier s = Some g → truthy (Some g) = true →
      resolution s (with_backgroundUrl g s)
  | FromSession u :
      truthy (memory_tier s) = false →
      session_tier s = Some u → truthy (Some u) = true →
      resolution s (with_global (Some u) (with_backgroundUrl u s))
  | FromCache c :
      truthy (memory_tier s) = false → truthy (session_tier s) = false →
      cached_read s = Some c → truthy (Some c) = true → verdict c s = true →
      resolution s (lock c (preloaded c s))
  | Fresh :
      truthy (memory_tier s) = false → truthy (session_tier s) = false →
      cached_usable s = false →
      verdict (seed_url (clock (cached_miss s))) (cached_miss s) = true →
      resolution s
        (lock (seed_url (clock (cached_miss s)))
           (write_cached (seed_url (clock (cached_miss s)))
              (preloaded (seed_url (clock (cached_miss s))) (cached_miss s))))
  | Unresolved :
      truthy (memory_tier s) = false → truthy (session_tier s) = false →
      cached_usable s = false →
      verdict (seed_url (clock (cached_miss s))) (cached_miss s) = false →
      resolution s (preloaded (seed_url (clock (cached_miss s))) (cached_miss s)).

(** ** Sample pages, for the examples *)

Definition open_store {V} (items : gmap string V) : Storage V :=
  Store items (λ _ _ _, true).
Definition full_store {V} (items : gmap string V) : Storage V :=
  Store items (λ _ _ _, false).

(** A page that has just been loaded, with one provider mounted. *)
Definition page (w : option browser) (now : Z)
    (be : Z → string → img_outcome) : state :=
  mkState "" false None w now be [].

Definition always (o : img_outcome) : Z → string → img_outcome := λ _ _, o.

Definition server_side : state := page None 1700000000000 (always Silent).

Definition blocked_page : state :=
  page (Some (mkBrowser Blocked Blocked)) 1700000000000 (always (Loads 80)).

Definition garbled_page : state :=
  page (Some (mkBrowser (full_store ∅)
                (full_store {[ BG_CACHE_KEY := Unparsable "{url:" ]})))
       1700000000000 (always (Loads 80)).

Definition old_url : string := "https://loliapi.com/acg/?seed=1699999000000".
Definition other_url : string := "https://loliapi.com/acg/?seed=1699990000000".

(** A page of a running session: the session tier is locked on
    [old_url], the persisted tier remembers another URL. *)
Definition returning_page : state :=
  page (Some (mkBrowser
                (open_store {[ BG_SESSION_KEY := old_url ]})
                (open_store {[ BG_CACHE_KEY :=
                    Parsed {| url := other_url; timestamp := 1699990000450 |} ]})))
       1700000000000 (always (Loads 80)).

(** The same page once a provider has resolved on it. *)
Definition warm_page : state :=
  with_global (Some old_url) (with_backgroundUrl old_url returning_page).

(** A page whose persisted record is one millisecond too old, and one
    whose record is exactly 24 hours old. *)
Definition stale_page : state :=
  page (Some (mkBrowser (open_store ∅)
                (open_store {[ BG_CACHE_KEY :=
                    Parsed {| url := other_url; timestamp := 1699913599999 |} ]})))
       1700000000000 (always (Loads 80)).

Definition day_old_page : state :=
  page (Some (mkBrowser (open_store ∅)
                (open_store {[ BG_CACHE_KEY :=
                    Parsed {| url := other_url; timestamp := 1699913600000 |} ]})))
       1700000000000 (always (Loads 80)).

(** A first visit: nothing stored anywhere, images load in 120 ms. *)
Definition first_visit : state :=
  page (Some (mkBrowser (open_store ∅) (open_store ∅)))
       1700000000000 (always (Loads 120)).

(** A first visit to a browser whose persisted storage has no room. *)
Definition no_room_visit : state :=
  page (Some (mkBrowser (open_store ∅) (full_store ∅)))
       1700000000000 (always (Loads 120)).

(** A page of a running session whose session storage has filled up
    since the lock was written. *)
Definition crowded_page : state :=
  page (Some (mkBrowser (full_store {[ BG_SESSION_KEY := old_url ]})
                (open_store ∅)))
       1700000000000 (always (Loads 120)).

(** A new session in a browser that remembers [other_url] from one
    second ago. *)
Definition remembered_page : state :=
  page (Some (mkBrowser (open_store ∅)
                (open_store {[ BG_CACHE_KEY :=
                    Parsed {| url := other_url; timestamp := 1699999999000 |} ]})))
       1700000000000 (always (Loads 120)).

(** The same browser with a session storage that has no room. *)
Definition remembered_crowded_page : state :=
  page (Some (mkBrowser (full_store ∅)
                (open_store {[ BG_CACHE_KEY :=
                    Parsed {| url := other_url; timestamp := 1699999999000 |} ]})))
       1700000000000 (always (Loads 120)).

(** The session tier holds [u] and the memory tier does not disagree. *)
Definition locked (u : string) (s : state) : Prop :=
  session_tier s = Some u ∧ truthy (Some u) = true ∧
  (memory_tier s = Some u ∨ truthy (memory_tier s) = false).

(** [returning_page] after a provider has resolved on it and the
    persisted storage has been wiped from outside. *)
Definition wiped_page : state :=
  with_window
    (Some (mkBrowser (open_store {[ BG_SESSION_KEY := old_url ]}) (open_store ∅)))
    (remount returning_page).

(** A browser that remembers [other_url], which no longer loads; any
    other image loads in 120 ms. *)
Definition picky (t : Z) (u : string) : img_outcome :=
  if String.eqb u other_url then Errors 30 else Loads 120.

Definition broken_cache_page : state :=
  page (Some (mkBrowser (open_store ∅)
                (open_store {[ BG_CACHE_KEY :=
                    Parsed {| url := other_url; timestamp := 1699999999000 |} ]})))
       1700000000000 picky.

(** ** Whole pages: any key of a storage, and what can happen to a page *)

Definition session_item (k : string) (s : state) : option string :=
  w ← window s; tier_of (sessionStorage w) k.

Definition local_item (k : string) (s : state) : option stored :=
  w ← window s; tier_of (localStorage w) k.

(** One thing happening on a page: an action of the mounted provider, a
    further provider mounting, or time passing. *)
Inductive page_step : state → state → Prop :=
  | StepAction a s : page_step s (after a s)
  | StepMount s : page_step s (remount s)
  | StepClock s t : clock s ≤ t → page_step s (with_clock t s).

(** The provider shows nothing or what the memory tier holds. *)
Definition coherent (s : state) : Prop :=
  backgroundUrl s = "" ∨ memory_tier s = Some (backgroundUrl s).

(** The persisted record, if any, is not stamped in the future. *)
Definition stamped (s : state) : Prop :=
  ∀ data, persisted_tier s = Some (Parsed data) → timestamp data ≤ clock s.

(** A browser whose session storage is there and accepts every write. *)
Definition session_reliable (s : state) : Prop :=
  ∃ w items fits, window s = Some w ∧ sessionStorage w = Store items fits ∧
                  ∀ i k v, fits i k v = true.

(** A non-empty memory tier is mirrored by the session tier. *)
Definition synced (s : state) : Prop :=
  truthy (memory_tier s) = true → session_tier s = memory_tier s.

(** The elementary changes an action is made of. The memory tier is only
    ever given a non-empty URL. *)
Inductive effect : state → state → Prop :=
  | EffBackgroundUrl u s : effect s (with_backgroundUrl u s)
  | EffIsLoaded b s : effect s (with_isLoaded b s)
  | EffGlobal u s : truthy (Some u) = true → effect s (with_global (Some u) s)
  | EffSession u s : effect s (write_session u s)
  | EffCached u s : effect s (write_cached u s)
  | EffRemove s : effect s (remove_persisted s)
  | EffPreload u s : effect s (preloaded u s).

(** A first visit to a site that keeps other things in both storages. *)
Definition busy_page : state :=
  page (Some (mkBrowser
                (open_store {[ "cart" := "3 items" ]})
                (open_store {[ "theme" := Unparsable "dark" ]})))
       1700000000000 (always (Loads 120)).

(** A browser that remembers [other_url] while no image loads at all. *)
Definition blocked_offline_page : state :=
  page (Some (mkBrowser (open_store ∅)
                (open_store {[ BG_CACHE_KEY :=
                    Parsed {| url := other_url; timestamp := 1699999999000 |} ]})))
       1700000000000 (always Silent).

(** A browser that remembers a URL seeded 30 ms ahead of now, on a
    network that is down until then. *)
Definition flaky (t : Z) (u : string) : img_outcome :=
  if t <? 1700000000030 then Errors 30 else Loads 120.

Definition flaky_page : state :=
  page (Some (mkBrowser (open_store ∅)
                (open_store {[ BG_CACHE_KEY :=
                    Parsed {| url := "https://loliapi.com/acg/?seed=1700000000030";
                              timestamp := 1699999999000 |} ]})))
       1700000000000 flaky.

(** * Properties *)

Ltac run_monad :=
  unfold mbind, M_bind, mret, M_ret, get, modify, lift, throw, try_catch,
    window_undefined, the_window, Date_now, console_error in *;
  cbn beta in *.

Section Accessors.

Implicit Types (s : state) (u : string).

Lemma getGlobalBackground_eq s : getGlobalBackground s = (Ok (memory_tier s), s).
Proof. reflexivity. Qed.

Lemma getSessionBackground_eq s : getSessionBackground s = (Ok (session_tier s), s).
Proof.
  unfold getSessionBackground, sessionStorage_getItem, session_tier. run_monad.
  destruct (window s) as [w|] eqn:Hw; simpl; rewrite ?Hw; [|done].
  by destruct (sessionStorage w).
Qed.

Lemma setSessionBackground_eq u s :
  setSessionBackground u s = (Ok (), write_session u s).
Proof.
  unfold setSessionBackground, sessionStorage_setItem, write_session. run_monad.
  destruct (window s) as [w|] eqn:Hw; simpl; rewrite ?Hw; [|done].
  destruct (sessionStorage w) as [|items fits]; simpl; [done|].
  by destruct (fits items BG_SESSION_KEY u).
Qed.

Lemma getCachedBackground_eq s :
  getCachedBackground s = (Ok (cached_read s), cached_sweep s).
Proof.
  unfold getCachedBackground, localStorage_getItem, localStorage_removeItem,
    cached_read, cached_sweep, persisted_tier, remove_persisted, expired.
  run_monad.
  destruct (window s) as [w|] eqn:Hw; simpl; rewrite ?Hw; [|done].
  destruct (localStorage w) as [|items fits] eqn:Hl; simpl; [done|].
  destruct (items !! BG_CACHE_KEY) as [[text|data]|]; simpl; [| |done].
  - by destruct text.
  - destruct (clock s - timestamp data >? BG_EXPIRE_TIME); [|done].
    by rewrite Hw, Hl.
Qed.

Lemma setCachedBackground_eq u s :
  setCachedBackground u s = (Ok (), write_cached u s).
Proof.
  unfold setCachedBackground, localStorage_setItem, write_cached, JSON_stringify.
  run_monad.
  destruct (window s) as [w|] eqn:Hw; simpl; rewrite ?Hw; [|done].
  destruct (localStorage w) as [|items fits]; simpl; [done|].
  by destruct (fits items BG_CACHE_KEY _).
Qed.

Lemma fetchNewBackground_eq s :
  fetchNewBackground s = (Ok (seed_url (clock s)), s).
Proof. reflexivity. Qed.

Lemma preloadImage_eq u s : preloadImage u s = (Ok (verdict u s), preloaded u s).
Proof.
  unfold preloadImage, preloaded, verdict, elapsed.
  by destruct (settle (backend s (clock s) u)).
Qed.

End Accessors.

Section Paths.

Implicit Types (s : state) (u c : string).

Lemma truthy_default o : truthy o = true → o = Some (default "" o).
Proof. by destruct o as [[|]|]. Qed.

Lemma init_memory s :
  truthy (memory_tier s) = true →
  initBackground s = (Ok (), with_backgroundUrl (default "" (memory_tier s)) s).
Proof.
  intros H. unfold initBackground. run_monad.
  rewrite getGlobalBackground_eq. by rewrite H.
Qed.

Lemma init_session s :
  truthy (memory_tier s) = false → truthy (session_tier s) = true →
  initBackground s =
    (Ok (), with_global (Some (default "" (session_tier s)))
              (with_backgroundUrl (default "" (session_tier s)) s)).
Proof.
  intros Hm Hs. unfold initBackground. run_monad.
  rewrite getGlobalBackground_eq, Hm, getSessionBackground_eq, Hs.
  reflexivity.
Qed.

(** A record that was just read can be removed: line 150 does not throw. *)
Lemma removeItem_after_read s c u :
  cached_read s = Some c →
  localStorage_removeItem BG_CACHE_KEY (preloaded u s)
  = (Ok (), remove_persisted (preloaded u s)).
Proof.
  unfold cached_read, persisted_tier, localStorage_removeItem, remove_persisted.
  run_monad. simpl.
  destruct (window s) as [w|]; simpl; [|done].
  by destruct (localStorage w).
Qed.

Lemma cached_read_sweep s c : cached_read s = Some c → cached_sweep s = s.
Proof.
  unfold cached_read, cached_sweep.
  destruct (persisted_tier s) as [[|data]|]; try done.
  by destruct (expired data s).
Qed.

Lemma commitFinal_eq u s :
  commitFinal u s = (Ok (), if truthy (Some u) then lock u s else s).
Proof.
  unfold commitFinal. destruct (truthy (Some u)); [|done].
  unfold setBackgroundUrl, setGlobalBackground. run_monad. simpl.
  by rewrite setSessionBackground_eq.
Qed.

Lemma generateIfUnresolved_eq s :
  generateIfUnresolved "" s =
    let new := seed_url (clock s) in
    if verdict new s then (Ok new, write_cached new (preloaded new s))
    else (Ok "", preloaded new s).
Proof.
  unfold generateIfUnresolved. cbn [truthy]. run_monad.
  rewrite fetchNewBackground_eq, preloadImage_eq. cbn zeta.
  destruct (verdict _ s); [|done]. by rewrite setCachedBackground_eq.
Qed.

Lemma init_cached s c :
  truthy (memory_tier s) = false → truthy (session_tier s) = false →
  cached_read s = Some c → truthy (Some c) = true → verdict c s = true →
  initBackground s = (Ok (), lock c (preloaded c s)).
Proof.
  intros Hm Hs Hc Ht Hv. unfold initBackground. run_monad.
  rewrite getGlobalBackground_eq, Hm, getSessionBackground_eq, Hs.
  rewrite getCachedBackground_eq, (cached_read_sweep _ _ Hc), Hc.
  unfold validateCached, generateIfUnresolved. rewrite Ht. run_monad.
  cbn [default from_option id]. rewrite preloadImage_eq, Hv, Ht.
  by rewrite commitFinal_eq, Ht.
Qed.

Lemma validateCached_miss s :
  cached_usable s = false →
  validateCached (cached_read s) (cached_sweep s) = (Ok "", cached_miss s).
Proof.
  unfold cached_usable, cached_miss, validateCached. intros Hc.
  destruct (cached_read s) as [c|] eqn:Hr; [|done].
  rewrite (cached_read_sweep _ _ Hr).
  destruct (truthy (Some c)); [|done]. simpl in Hc. run_monad.
  cbn [default from_option id]. rewrite preloadImage_eq, Hc.
  by rewrite (removeItem_after_read _ _ _ Hr).
Qed.

Lemma init_fresh s :
  truthy (memory_tier s) = false → truthy (session_tier s) = false →
  cached_usable s = false →
  let s2 := cached_miss s in
  let new := seed_url (clock s2) in
  initBackground s =
    (Ok (), if verdict new s2
            then lock new (write_cached new (preloaded new s2))
            else preloaded new s2).
Proof.
  intros Hm Hs Hc. unfold initBackground. run_monad.
  rewrite getGlobalBackground_eq, Hm, getSessionBackground_eq, Hs.
  rewrite getCachedBackground_eq, (validateCached_miss _ Hc).
  rewrite generateIfUnresolved_eq. cbn zeta.
  destruct (verdict _ _); by rewrite commitFinal_eq.
Qed.

Lemma refreshBackground_eq s :
  let new := seed_url (clock s) in
  refreshBackground s =
    (Ok (), if verdict new s then refreshed new (preloaded new s)
            else preloaded new s).
Proof.
  unfold refreshBackground. run_monad.
  rewrite fetchNewBackground_eq, preloadImage_eq. cbn zeta.
  destruct (verdict _ s); [|done].
  unfold setBackgroundUrl, setGlobalBackground, setIsLoaded. run_monad. simpl.
  by rewrite setSessionBackground_eq, setCachedBackground_eq.
Qed.

End Paths.

(** ** What each storage effect leaves alone *)

Ltac by_cases_on_storage :=
  intros;
  unfold lock, refreshed, cached_miss, cached_sweep, write_session, write_cached,
    remove_persisted, preloaded, session_tier, persisted_tier, persisted_url,
    session_accepts, persisted_accepts, storage_setItem, storage_removeItem,
    accepts, tier_of in *;
  repeat match goal with
         | s : state |- _ => destruct s as [? ? ? [[[|? ?] [|? ?]]|] ? ? ?]
         end;
  simpl in *; repeat (case_match; simplify_eq; simpl in *);
  repeat split; simplify_map_eq; try done.

Section Frames.

Implicit Types (s : state) (u : string).

Lemma write_session_provider u s :
  backgroundUrl (write_session u s) = backgroundUrl s ∧
  isLoaded (write_session u s) = isLoaded s ∧
  globalBackgroundUrl (write_session u s) = globalBackgroundUrl s ∧
  clock (write_session u s) = clock s ∧
  backend (write_session u s) = backend s.
Proof. by_cases_on_storage. Qed.

Lemma write_cached_provider u s :
  backgroundUrl (write_cached u s) = backgroundUrl s ∧
  isLoaded (write_cached u s) = isLoaded s ∧
  globalBackgroundUrl (write_cached u s) = globalBackgroundUrl s ∧
  clock (write_cached u s) = clock s ∧
  backend (write_cached u s) = backend s.
Proof. by_cases_on_storage. Qed.

Lemma remove_persisted_provider s :
  backgroundUrl (remove_persisted s) = backgroundUrl s ∧
  isLoaded (remove_persisted s) = isLoaded s ∧
  globalBackgroundUrl (remove_persisted s) = globalBackgroundUrl s ∧
  clock (remove_persisted s) = clock s ∧
  backend (remove_persisted s) = backend s ∧
  trace (remove_persisted s) = trace s.
Proof. by_cases_on_storage. Qed.

Lemma cached_miss_provider s :
  backgroundUrl (cached_miss s) = backgroundUrl s ∧
  isLoaded (cached_miss s) = isLoaded s ∧
  globalBackgroundUrl (cached_miss s) = globalBackgroundUrl s ∧
  backend (cached_miss s) = backend s.
Proof. by_cases_on_storage. Qed.

Lemma write_session_tiers u s :
  session_tier (write_session u s)
    = (if session_accepts u s then Some u else session_tier s) ∧
  persisted_tier (write_session u s) = persisted_tier s.
Proof. by_cases_on_storage. Qed.

Lemma write_cached_tiers u s :
  persisted_tier (write_cached u s)
    = (if persisted_accepts {| url := u; timestamp := clock s |} s
       then Some (Parsed {| url := u; timestamp := clock s |})
       else persisted_tier s) ∧
  session_tier (write_cached u s) = session_tier s.
Proof. by_cases_on_storage. Qed.

Lemma remove_persisted_tiers s :
  persisted_tier (remove_persisted s) = None ∧
  session_tier (remove_persisted s) = session_tier s.
Proof. by_cases_on_storage. Qed.

Lemma write_cached_session_accepts u v s :
  session_accepts v (write_cached u s) = session_accepts v s.
Proof. by_cases_on_storage. Qed.

End Frames.

(** ** Storage accessors (lines 33-86) *)

(** C9. Outside a browser ([window] undefined) both reads return null
    and both writes do nothing: no storage is touched, nothing is logged,
    nothing is thrown. *)
Theorem accessors_without_window (s : state) (u : string) :
  window s = None →
  getSessionBackground s = (Ok None, s) ∧
  getCachedBackground s = (Ok None, s) ∧
  setSessionBackground u s = (Ok (), s) ∧
  setCachedBackground u s = (Ok (), s).
Proof.
  intros Hw.
  rewrite getSessionBackground_eq, getCachedBackground_eq,
    setSessionBackground_eq, setCachedBackground_eq.
  unfold session_tier, cached_read, cached_sweep, persisted_tier,
    write_session, write_cached.
  by rewrite Hw.
Qed.

Lemma accessors_without_window_witness :
  getSessionBackground server_side = (Ok None, server_side) ∧
  getCachedBackground server_side = (Ok None, server_side) ∧
  setSessionBackground "https://loliapi.com/acg/?seed=1" server_side
    = (Ok (), server_side) ∧
  setCachedBackground "https://loliapi.com/acg/?seed=1" server_side
    = (Ok (), server_side).
Proof. apply (accessors_without_window server_side). reflexivity. Defined.

(** C8. A storage failure never escapes an accessor. A read from a
    storage that refuses access, or of a persisted text that does not
    parse, returns null and changes nothing. A write that the storage
    refuses (access or quota) changes nothing but the console: one
    [console.error] line is added, and the provider's state, the memory
    tier and both storages are as before. *)
Theorem storage_failures_degrade (s : state) (w : browser) (u : string) :
  window s = Some w →
  (sessionStorage w = Blocked → getSessionBackground s = (Ok None, s)) ∧
  (localStorage w = Blocked → getCachedBackground s = (Ok None, s)) ∧
  (∀ text, persisted_tier s = Some (Unparsable text) →
     getCachedBackground s = (Ok None, s)) ∧
  (∀ e, storage_setItem (sessionStorage w) BG_SESSION_KEY u = Throw e →
     setSessionBackground u s
     = (Ok (), emit (ConsoleError "Failed to set session background:" e) s)) ∧
  (∀ e, storage_setItem (localStorage w) BG_CACHE_KEY
          (Parsed {| url := u; timestamp := clock s |}) = Throw e →
     setCachedBackground u s
     = (Ok (), emit (ConsoleError "Failed to cache background:" e) s)).
Proof.
  intros Hw.
  rewrite getSessionBackground_eq, getCachedBackground_eq,
    setSessionBackground_eq, setCachedBackground_eq.
  unfold session_tier, cached_read, cached_sweep, persisted_tier,
    write_session, write_cached.
  rewrite Hw. simpl. repeat split.
  - by intros ->.
  - by intros ->.
  - by intros text ->.
  - by intros e ->.
  - by intros e ->.
Qed.

Lemma storage_failures_degrade_witness :
  getSessionBackground blocked_page = (Ok None, blocked_page) ∧
  getCachedBackground blocked_page = (Ok None, blocked_page) ∧
  getCachedBackground garbled_page = (Ok None, garbled_page) ∧
  setSessionBackground "https://loliapi.com/acg/?seed=1" garbled_page
  = (Ok (), emit (ConsoleError "Failed to set session background:"
                    QuotaExceededError) garbled_page) ∧
  setCachedBackground "https://loliapi.com/acg/?seed=1" blocked_page
  = (Ok (), emit (ConsoleError "Failed to cache background:" SecurityError)
              blocked_page).
Proof.
  pose proof (storage_failures_degrade blocked_page
                (mkBrowser Blocked Blocked)
                "https://loliapi.com/acg/?seed=1" eq_refl) as (B1 & B2 & _ & _ & B5).
  pose proof (storage_failures_degrade garbled_page
                (mkBrowser (full_store ∅)
                   (full_store {[ BG_CACHE_KEY := Unparsable "{url:" ]}))
                "https://loliapi.com/acg/?seed=1" eq_refl) as (_ & _ & G3 & G4 & _).
  exact (conj (B1 eq_refl) (conj (B2 eq_refl) (conj (G3 "{url:" eq_refl)
           (conj (G4 QuotaExceededError eq_refl) (B5 SecurityError eq_refl))))).
Defined.

(** No accessor ever throws, whatever the state. *)
Lemma accessors_total (s : state) (u : string) :
  (∃ r s', getSessionBackground s = (Ok r, s')) ∧
  (∃ r s', getCachedBackground s = (Ok r, s')) ∧
  (∃ s', setSessionBackground u s = (Ok (), s')) ∧
  (∃ s', setCachedBackground u s = (Ok (), s')).
Proof.
  rewrite getSessionBackground_eq, getCachedBackground_eq,
    setSessionBackground_eq, setCachedBackground_eq.
  naive_solver.
Qed.

(** ** The resolution pass (lines 121-173) *)

Lemma initBackground_resolution (s : state) :
  ∃ s', initBackground s = (Ok (), s') ∧ resolution s s'.
Proof.
  destruct (truthy (memory_tier s)) eqn:Hm.
  { eexists. split; [by apply init_memory|].
    apply truthy_default in Hm as Hg. rewrite Hg in Hm.
    by apply FromMemory. }
  destruct (truthy (session_tier s)) eqn:Hs.
  { eexists. split; [by apply init_session|].
    apply truthy_default in Hs as Hu. rewrite Hu in Hs.
    by apply FromSession. }
  destruct (cached_usable s) eqn:Hc.
  { unfold cached_usable in Hc.
    destruct (cached_read s) as [c|] eqn:Hr; [|done].
    apply andb_prop in Hc as [Ht Hv].
    eexists. split; [by eapply init_cached|]. by apply FromCache. }
  eexists. split; [by apply init_fresh|]. cbn zeta.
  destruct (verdict _ (cached_miss s)) eqn:Hv.
  - by apply Fresh.
  - by apply Unresolved.
Qed.

Lemma initBackground_after (s : state) :
  initBackground s = (Ok (), after Init s) ∧ resolution s (after Init s).
Proof.
  destruct (initBackground_resolution s) as (s' & Hrun & Hres).
  unfold after, run. by rewrite Hrun.
Qed.

Lemma refreshBackground_after (s : state) :
  after Refresh s =
    if verdict (seed_url (clock s)) s
    then refreshed (seed_url (clock s)) (preloaded (seed_url (clock s)) s)
    else preloaded (seed_url (clock s)) s.
Proof. unfold after, run. by rewrite refreshBackground_eq. Qed.



(** ** The load flag (lines 117-190) *)

Section Flag.

Implicit Types (s : state) (u : string).

Lemma isLoaded_lock u s : isLoaded (lock u s) = isLoaded s.
Proof. unfold lock. by rewrite (proj1 (proj2 (write_session_provider _ _))). Qed.

Lemma isLoaded_write_cached u s : isLoaded (write_cached u s) = isLoaded s.
Proof. apply write_cached_provider. Qed.

Lemma isLoaded_cached_miss s : isLoaded (cached_miss s) = isLoaded s.
Proof. apply cached_miss_provider. Qed.

Lemma resolution_isLoaded s s' : resolution s s' → isLoaded s' = isLoaded s.
Proof.
  destruct 1; rewrite ?isLoaded_lock, ?isLoaded_write_cached; simpl;
    by rewrite ?isLoaded_cached_miss.
Qed.

End Flag.

(** C10. The flag [isLoaded] starts false. [setLoaded] sets it and
    touches nothing else. A resolution pass never changes it. A refresh
    clears it exactly when the new URL passes its preload and leaves it
    alone otherwise. Hence [setLoaded] is the only action that can turn it
    on, and a refresh whose preload succeeds the only one that can turn it
    off. *)
Theorem isLoaded_transitions :
  (∀ s, isLoaded (mount s) = false) ∧
  (∀ s, setLoaded s = (Ok (), with_isLoaded true s)) ∧
  (∀ s, isLoaded (after Init s) = isLoaded s) ∧
  (∀ s, isLoaded (after Refresh s)
        = if verdict (seed_url (clock s)) s then false else isLoaded s) ∧
  (∀ a s, isLoaded s = false → isLoaded (after a s) = true → a = SetLoaded) ∧
  (∀ a s, isLoaded s = true → isLoaded (after a s) = false →
          a = Refresh ∧ verdict (seed_url (clock s)) s = true).
Proof.
  assert (HI : ∀ s, isLoaded (after Init s) = isLoaded s).
  { intros s. apply resolution_isLoaded, initBackground_after. }
  assert (HR : ∀ s, isLoaded (after Refresh s)
                    = if verdict (seed_url (clock s)) s then false else isLoaded s).
  { intros s. rewrite refreshBackground_after. by destruct (verdict _ s). }
  split_and!; try done.
  - intros [] s Hoff Hon; [|done|].
    + rewrite HI in Hon. congruence.
    + rewrite HR in Hon. destruct (verdict _ s); congruence.
  - intros [] s Hon Hoff.
    + rewrite HI in Hoff. congruence.
    + done.
    + rewrite HR in Hoff. destruct (verdict _ s); [done|congruence].
Qed.

Lemma isLoaded_transitions_witness :
  isLoaded (after Init (with_isLoaded true returning_page)) = true ∧
  isLoaded (after Refresh (with_isLoaded true returning_page)) = false.
Proof.
  destruct isLoaded_transitions as (_ & _ & HI & HR & _).
  exact (conj (HI (with_isLoaded true returning_page))
              (HR (with_isLoaded true returning_page))).
Defined.

(** ** Image requests made by the effects *)

Section Requests.

Implicit Types (s : state) (u : string).

Lemma requests_emit_console s m e :
  requests (emit (ConsoleError m e) s) = requests s.
Proof. unfold requests. simpl. rewrite List.filter_app. simpl. apply app_nil_r. Qed.

Lemma requests_write_session u s : requests (write_session u s) = requests s.
Proof.
  unfold write_session. repeat case_match; try done.
  apply requests_emit_console.
Qed.

Lemma requests_write_cached u s : requests (write_cached u s) = requests s.
Proof.
  unfold write_cached. repeat case_match; try done.
  apply requests_emit_console.
Qed.

Lemma requests_remove_persisted s : requests (remove_persisted s) = requests s.
Proof. unfold remove_persisted. by repeat case_match. Qed.

Lemma requests_cached_sweep s : requests (cached_sweep s) = requests s.
Proof.
  unfold cached_sweep. repeat case_match; try done.
  apply requests_remove_persisted.
Qed.

Lemma requests_preloaded u s :
  requests (preloaded u s) = requests s ++ [Preload (clock s) u (verdict u s)].
Proof. unfold requests. simpl. by rewrite List.filter_app. Qed.

Lemma requests_lock u s : requests (lock u s) = requests s.
Proof. unfold lock. by rewrite requests_write_session. Qed.

Lemma requests_refreshed u s : requests (refreshed u s) = requests s.
Proof.
  unfold refreshed, requests. simpl. fold (requests (write_cached u
    (write_session u (with_global (Some u) (with_backgroundUrl u s))))).
  by rewrite requests_write_cached, requests_write_session.
Qed.

(** What a failed persisted candidate leaves behind. *)
Lemma requests_cached_miss s :
  requests (cached_miss s) = requests s ++
    match cached_read s with
    | Some c =>
        if truthy (Some c) then [Preload (clock s) c (verdict c s)] else []
    | None => []
    end.
Proof.
  unfold cached_miss. destruct (cached_read s) as [c|].
  - destruct (truthy (Some c)); [|by rewrite app_nil_r].
    by rewrite requests_remove_persisted, requests_preloaded.
  - by rewrite requests_cached_sweep, app_nil_r.
Qed.

End Requests.

(** ** The tiers after a commit *)

Section Commit.

Implicit Types (s : state) (u : string).

Lemma lock_tiers u s :
  backgroundUrl (lock u s) = u ∧
  memory_tier (lock u s) = Some u ∧
  session_tier (lock u s)
    = (if session_accepts u s then Some u else session_tier s) ∧
  persisted_tier (lock u s) = persisted_tier s.
Proof. unfold memory_tier. by_cases_on_storage. Qed.

Lemma refreshed_tiers u s :
  backgroundUrl (refreshed u s) = u ∧
  isLoaded (refreshed u s) = false ∧
  memory_tier (refreshed u s) = Some u ∧
  session_tier (refreshed u s)
    = (if session_accepts u s then Some u else session_tier s) ∧
  persisted_tier (refreshed u s)
    = (if persisted_accepts {| url := u; timestamp := clock s |} s
       then Some (Parsed {| url := u; timestamp := clock s |})
       else persisted_tier s).
Proof. unfold memory_tier. by_cases_on_storage. Qed.

Lemma elapsed_nonneg u s : 0 ≤ elapsed u s.
Proof.
  unfold elapsed, settle, BG_LOAD_TIMEOUT.
  destruct (backend s (clock s) u) as [d|d|]; simpl; [| |lia];
    destruct (Z.ltb_spec (Z.of_N d) 10000); simpl; lia.
Qed.

End Commit.

(** ** Expiry of the persisted record (lines 53-72) *)

(** C6. A persisted record older than 86,400,000 ms is read as null and
    deleted from the storage by that very read; a resolution pass that
    gets as far as the persisted tier then makes a single image request,
    for a URL generated from the current time, and does not bring the old
    record back. A record of age at most 86,400,000 ms is read as its URL,
    and the read changes nothing. *)
Theorem persisted_record_expiry (s : state) (w : browser)
    (items : gmap string stored)
    (fits : gmap string stored → string → stored → bool)
    (data : BackgroundCache) :
  window s = Some w →
  localStorage w = Store items fits →
  items !! BG_CACHE_KEY = Some (Parsed data) →
  (clock s - timestamp data > BG_EXPIRE_TIME →
     getCachedBackground s
     = (Ok None,
        with_window (Some (put_local w (Store (delete BG_CACHE_KEY items) fits))) s) ∧
     (truthy (memory_tier s) = false → truthy (session_tier s) = false →
        requests (after Init s)
        = requests s ++ [Preload (clock s) (seed_url (clock s))
                           (verdict (seed_url (clock s)) s)] ∧
        persisted_tier (after Init s) ≠ Some (Parsed data))) ∧
  (clock s - timestamp data ≤ BG_EXPIRE_TIME →
     getCachedBackground s = (Ok (Some (url data)), s)).
Proof.
  intros Hw Hl Hi.
  assert (Hp : persisted_tier s = Some (Parsed data)).
  { unfold persisted_tier. rewrite Hw. simpl. by rewrite Hl. }
  rewrite getCachedBackground_eq. unfold cached_read, cached_sweep.
  rewrite Hp. unfold expired. split.
  - intros Hold. apply Z.gtb_gt in Hold as Hb. rewrite Hb.
    assert (Hrm : remove_persisted s
      = with_window (Some (put_local w (Store (delete BG_CACHE_KEY items) fits))) s).
    { unfold remove_persisted. by rewrite Hw, Hl. }
    split; [by rewrite Hrm|]. intros Hm Hs.
    assert (Hread : cached_read s = None).
    { unfold cached_read, expired. by rewrite Hp, Hb. }
    assert (Hmiss : cached_miss s = remove_persisted s).
    { unfold cached_miss, cached_sweep, expired. by rewrite Hread, Hp, Hb. }
    assert (Hun : cached_usable s = false).
    { unfold cached_usable. by rewrite Hread. }
    destruct (initBackground_after s) as [Hrun _].
    rewrite (init_fresh s Hm Hs Hun) in Hrun. cbn zeta in Hrun.
    rewrite Hmiss in Hrun.
    destruct (remove_persisted_provider s) as (_ & _ & _ & Hck & Hbe & _).
    destruct (remove_persisted_tiers s) as [Hgone _].
    assert (Hv : ∀ u, verdict u (remove_persisted s) = verdict u s).
    { intros u. unfold verdict. by rewrite Hck, Hbe. }
    rewrite Hck, Hv in Hrun. injection Hrun as <-.
    destruct (verdict (seed_url (clock s)) s) eqn:Hvs.
    + split.
      * rewrite requests_lock, requests_write_cached, requests_preloaded.
        by rewrite requests_remove_persisted, Hck, Hv, Hvs.
      * rewrite (proj2 (proj2 (proj2 (lock_tiers _ _)))).
        rewrite (proj1 (write_cached_tiers _ _)).
        destruct (persisted_accepts _ _).
        -- intros [= Hd]. rewrite <- Hd in Hold. simpl in Hold.
           rewrite Hck in Hold.
           pose proof (elapsed_nonneg (seed_url (clock s)) (remove_persisted s)).
           unfold BG_EXPIRE_TIME in Hold. lia.
        -- change (persisted_tier (remove_persisted s) ≠ Some (Parsed data)).
           by rewrite Hgone.
    + split.
      * by rewrite requests_preloaded, requests_remove_persisted, Hck, Hv, Hvs.
      * change (persisted_tier (remove_persisted s) ≠ Some (Parsed data)).
        by rewrite Hgone.
  - intros Hyoung.
    destruct (Z.gtb_spec (clock s - timestamp data) BG_EXPIRE_TIME); [lia|done].
Qed.

Lemma persisted_record_expiry_witness :
  (getCachedBackground stale_page
   = (Ok None,
      with_window (Some (mkBrowser (open_store ∅) (open_store ∅))) stale_page) ∧
   requests (after Init stale_page)
   = [Preload 1700000000000 "https://loliapi.com/acg/?seed=1700000000000" true]) ∧
  getCachedBackground day_old_page = (Ok (Some other_url), day_old_page).
Proof.
  pose proof (persisted_record_expiry stale_page _ _ _ _ eq_refl eq_refl eq_refl)
    as [Hold _].
  pose proof (persisted_record_expiry day_old_page _ _ _ _ eq_refl eq_refl eq_refl)
    as [_ Hyoung].
  destruct (Hold ltac:(vm_compute; reflexivity)) as [Hread Hinit].
  destruct (Hinit eq_refl eq_refl) as [Hreq _].
  split; [split|].
  - exact Hread.
  - exact Hreq.
  - apply Hyoung. vm_compute. discriminate.
Defined.

(** ** Refresh (lines 179-190) *)

Lemma refreshBackground_total (s : state) :
  refreshBackground s = (Ok (), after Refresh s).
Proof. unfold after, run. by rewrite refreshBackground_eq. Qed.

(** C1, as amended. A refresh generates the URL seeded with the current
    time and preloads it. If the preload succeeds, [backgroundUrl] and
    the memory tier become the new URL and [isLoaded] becomes false; the
    session tier becomes the new URL if the session storage accepts the
    write and is left as it was otherwise; the persisted tier becomes the
    record of the new URL, stamped with the time the preload ended, if
    the persisted storage accepts the write, and is left as it was
    otherwise. If the preload fails, the provider's state, the memory tier
    and both storages are unchanged. The call never throws. *)
Theorem refresh_outcome (s : state) :
  let new := seed_url (clock s) in
  let s' := after Refresh s in
  let record := {| url := new; timestamp := clock s + elapsed new s |} in
  refreshBackground s = (Ok (), s') ∧
  (verdict new s = true →
     backgroundUrl s' = new ∧ memory_tier s' = Some new ∧ isLoaded s' = false ∧
     session_tier s'
       = (if session_accepts new s then Some new else session_tier s) ∧
     persisted_tier s'
       = (if persisted_accepts record s then Some (Parsed record)
          else persisted_tier s)) ∧
  (verdict new s = false → same_tiers s s').
Proof.
  cbn zeta. split; [apply refreshBackground_total|].
  rewrite refreshBackground_after. split; intros Hv; rewrite Hv.
  - destruct (refreshed_tiers (seed_url (clock s))
                (preloaded (seed_url (clock s)) s)) as (? & ? & ? & ? & ?).
    done.
  - done.
Qed.

Lemma refresh_outcome_witness :
  backgroundUrl (after Refresh returning_page)
    = "https://loliapi.com/acg/?seed=1700000000000" ∧
  session_tier (after Refresh returning_page)
    = Some "https://loliapi.com/acg/?seed=1700000000000" ∧
  persisted_tier (after Refresh returning_page)
    = Some (Parsed {| url := "https://loliapi.com/acg/?seed=1700000000000";
                      timestamp := 1700000000080 |}) ∧
  same_tiers server_side (after Refresh server_side).
Proof.
  destruct (refresh_outcome returning_page) as (_ & Hok & _).
  destruct (refresh_outcome server_side) as (_ & _ & Hfail).
  destruct (Hok eq_refl) as (Hb & _ & _ & Hs & Hp).
  exact (conj Hb (conj Hs (conj Hp (Hfail eq_refl)))).
Defined.

(** C1, as stated, fails where a storage refuses the write. On a page
    whose session storage is full, the preload of the new URL succeeds
    and the session tier still holds the old URL afterwards; on a page
    whose persisted storage is full, the preload succeeds and the
    persisted tier is still empty afterwards. *)
Lemma refresh_leaves_full_session_storage :
  (verdict (seed_url (clock crowded_page)) crowded_page = true ∧
   memory_tier (after Refresh crowded_page) = Some (seed_url (clock crowded_page)) ∧
   session_tier (after Refresh crowded_page) = Some old_url ∧
   session_tier (after Refresh crowded_page)
     ≠ Some (seed_url (clock crowded_page))) ∧
  (verdict (seed_url (clock no_room_visit)) no_room_visit = true ∧
   memory_tier (after Refresh no_room_visit)
     = Some (seed_url (clock no_room_visit)) ∧
   persisted_tier (after Refresh no_room_visit) = None).
Proof. by vm_compute. Qed.

(** ** First visit (lines 154-169, 74-92) *)

Section FirstVisit.

Variable s : state.
Hypothesis memory_empty : memory_tier s = None.
Hypothesis session_empty : session_tier s = None.
Hypothesis persisted_empty : persisted_tier s = None.

Lemma first_visit_generates :
  cached_usable s = false ∧ cached_miss s = s.
Proof using persisted_empty.
  unfold cached_usable, cached_miss, cached_read, cached_sweep.
  by rewrite persisted_empty.
Qed.

Lemma first_visit_run :
  initBackground s =
    (Ok (), if verdict (seed_url (clock s)) s
            then lock (seed_url (clock s))
                   (write_cached (seed_url (clock s))
                      (preloaded (seed_url (clock s)) s))
            else preloaded (seed_url (clock s)) s).
Proof using All.
  destruct first_visit_generates as [Hun Hmiss].
  rewrite init_fresh; rewrite ?memory_empty, ?session_empty, ?Hmiss; done.
Qed.

End FirstVisit.

(** C4, as amended. With all three tiers empty and both storages
    accepting writes, a resolution pass started at time T1 whose preload
    of the URL seeded with T1 succeeds ends with [backgroundUrl], the
    memory tier and the session tier equal to that URL, and with the
    persisted record holding that URL and the timestamp T2 that
    [setCachedBackground] reads when it writes the record (line 80),
    after the preload has completed. The writes are the last thing the
    pass does, so T2 is the time at which the pass ends; it is not the
    seed T1 read at line 90. *)
Theorem first_visit_resolution (s : state) :
  let T1 := clock s in
  let new := seed_url T1 in
  let s' := after Init s in
  let T2 := clock s' in
  memory_tier s = None → session_tier s = None → persisted_tier s = None →
  verdict new s = true →
  session_accepts new s = true →
  persisted_accepts {| url := new; timestamp := T2 |} s = true →
  backgroundUrl s' = new ∧
  memory_tier s' = Some new ∧
  session_tier s' = Some new ∧
  persisted_tier s' = Some (Parsed {| url := new; timestamp := T2 |}).
Proof.
  cbn zeta. intros Hm Hs Hp Hv Has.
  assert (Hafter : after Init s
                   = lock (seed_url (clock s))
                       (write_cached (seed_url (clock s))
                          (preloaded (seed_url (clock s)) s))).
  { unfold after, run. by rewrite (first_visit_run s Hm Hs Hp), Hv. }
  rewrite Hafter.
  assert (Hck : clock (lock (seed_url (clock s))
                         (write_cached (seed_url (clock s))
                            (preloaded (seed_url (clock s)) s)))
                = clock (preloaded (seed_url (clock s)) s)).
  { unfold lock.
    rewrite (proj1 (proj2 (proj2 (proj2 (write_session_provider _ _))))).
    cbn [clock with_global with_backgroundUrl].
    apply write_cached_provider. }
  rewrite Hck. intros Hap.
  destruct (lock_tiers (seed_url (clock s))
              (write_cached (seed_url (clock s))
                 (preloaded (seed_url (clock s)) s))) as (Hb & Hg & Hse & Hpe).
  rewrite Hb, Hg, Hse, Hpe.
  destruct (write_cached_tiers (seed_url (clock s))
              (preloaded (seed_url (clock s)) s)) as [Hpc Hsc].
  rewrite Hpc.
  change (persisted_accepts ?d (preloaded (seed_url (clock s)) s))
    with (persisted_accepts d s).
  rewrite Hap, write_cached_session_accepts.
  change (session_accepts _ (preloaded (seed_url (clock s)) s))
    with (session_accepts (seed_url (clock s)) s).
  by rewrite Has.
Qed.

Lemma first_visit_resolution_witness :
  backgroundUrl (after Init first_visit)
    = "https://loliapi.com/acg/?seed=1700000000000" ∧
  memory_tier (after Init first_visit)
    = Some "https://loliapi.com/acg/?seed=1700000000000" ∧
  session_tier (after Init first_visit)
    = Some "https://loliapi.com/acg/?seed=1700000000000" ∧
  persisted_tier (after Init first_visit)
    = Some (Parsed {| url := "https://loliapi.com/acg/?seed=1700000000000";
                      timestamp := 1700000000120 |}).
Proof.
  exact (first_visit_resolution first_visit
           eq_refl eq_refl eq_refl eq_refl eq_refl eq_refl).
Defined.

(** C4, as stated, fails on the timestamp: on a first visit at
    T1 = 1700000000000 where the image takes 120 ms to load, the record
    written is stamped 1700000000120, not T1. (And where the persisted
    storage has no room, no record is written at all.) *)
Lemma first_visit_timestamp_is_not_the_seed :
  (memory_tier first_visit = None ∧ session_tier first_visit = None ∧
   persisted_tier first_visit = None ∧
   verdict (seed_url (clock first_visit)) first_visit = true ∧
   backgroundUrl (after Init first_visit) = seed_url (clock first_visit) ∧
   persisted_tier (after Init first_visit)
     = Some (Parsed {| url := seed_url (clock first_visit);
                       timestamp := clock first_visit + 120 |}) ∧
   persisted_tier (after Init first_visit)
     ≠ Some (Parsed {| url := seed_url (clock first_visit);
                       timestamp := clock first_visit |})) ∧
  (memory_tier no_room_visit = None ∧ session_tier no_room_visit = None ∧
   persisted_tier no_room_visit = None ∧
   verdict (seed_url (clock no_room_visit)) no_room_visit = true ∧
   persisted_tier (after Init no_room_visit) = None).
Proof. by vm_compute. Qed.

(** ** Which resolutions write the persisted tier (lines 140-169) *)

Lemma cached_miss_clock_backend (s : state) :
  backend (cached_miss s) = backend s ∧ clock s ≤ clock (cached_miss s).
Proof.
  split; [apply cached_miss_provider|].
  unfold cached_miss, cached_sweep.
  destruct (cached_read s) as [c|].
  - destruct (truthy (Some c)); [|done].
    rewrite (proj1 (proj2 (proj2 (proj2 (remove_persisted_provider _))))).
    simpl. pose proof (elapsed_nonneg c s). lia.
  - repeat case_match; try done.
    by rewrite (proj1 (proj2 (proj2 (proj2 (remove_persisted_provider _))))).
Qed.

Lemma cached_miss_persisted (s : state) :
  persisted_tier (cached_miss s) = persisted_tier s ∨
  persisted_tier (cached_miss s) = None.
Proof.
  unfold cached_miss, cached_sweep.
  destruct (cached_read s) as [c|].
  - destruct (truthy (Some c)); [|by left].
    right. apply remove_persisted_tiers.
  - repeat case_match; try by left.
    right. apply remove_persisted_tiers.
Qed.

(** C3, as amended. A resolution pass that reaches the persisted tier:
    - with a non-expired persisted URL that passes its preload, makes
      that URL [backgroundUrl] and the memory tier, writes it to the
      session tier if the session storage accepts the write, requests no
      other image, and leaves the persisted tier (record and timestamp)
      exactly as it was;
    - with no usable persisted URL and a generated URL that passes its
      preload, makes the generated URL [backgroundUrl] and the memory
      tier, and writes it to the session tier and, with the time the
      preload ended, to the persisted tier, each if its storage accepts
      the write.
    In every pass the persisted tier ends as it began, or empty, or
    holding a record of the freshly generated URL that the pass
    resolved to. *)
Theorem init_persists_only_fresh_urls (s : state) :
  let s' := after Init s in
  (∀ data,
     truthy (memory_tier s) = false → truthy (session_tier s) = false →
     persisted_tier s = Some (Parsed data) → expired data s = false →
     truthy (Some (url data)) = true → verdict (url data) s = true →
     backgroundUrl s' = url data ∧ memory_tier s' = Some (url data) ∧
     session_tier s'
       = (if session_accepts (url data) s then Some (url data)
          else session_tier s) ∧
     requests s' = requests s ++ [Preload (clock s) (url data) true] ∧
     persisted_tier s' = Some (Parsed data)) ∧
  (let s2 := cached_miss s in
   let new := seed_url (clock s2) in
   let record := {| url := new; timestamp := clock s2 + elapsed new s2 |} in
   truthy (memory_tier s) = false → truthy (session_tier s) = false →
   cached_usable s = false → verdict new s2 = true →
   backgroundUrl s' = new ∧ memory_tier s' = Some new ∧
   session_tier s'
     = (if session_accepts new s2 then Some new else session_tier s2) ∧
   persisted_tier s'
     = (if persisted_accepts record s2 then Some (Parsed record)
        else persisted_tier s2)) ∧
  (persisted_tier s' = persisted_tier s ∨ persisted_tier s' = None ∨
   ∃ t t', persisted_tier s'
             = Some (Parsed {| url := seed_url t; timestamp := t' |}) ∧
           backgroundUrl s' = seed_url t ∧
           Preload t (seed_url t) true ∈ requests s').
Proof.
  cbn zeta. split_and!.
  - intros data Hm Hs Hp Hex Ht Hv.
    assert (Hr : cached_read s = Some (url data)).
    { unfold cached_read. by rewrite Hp, Hex. }
    unfold after, run. rewrite (init_cached s _ Hm Hs Hr Ht Hv). cbn [snd].
    destruct (lock_tiers (url data) (preloaded (url data) s))
      as (Hb & Hg & Hse & Hpe).
    rewrite Hb, Hg, Hse, Hpe, requests_lock, requests_preloaded, Hv.
    by rewrite <- Hp.
  - intros Hm Hs Hun Hv.
    unfold after, run. rewrite (init_fresh s Hm Hs Hun). cbn zeta.
    rewrite Hv. cbn [snd].
    destruct (lock_tiers (seed_url (clock (cached_miss s)))
                (write_cached (seed_url (clock (cached_miss s)))
                   (preloaded (seed_url (clock (cached_miss s))) (cached_miss s))))
      as (Hb & Hg & Hse & Hpe).
    rewrite Hb, Hg, Hse, Hpe.
    destruct (write_cached_tiers (seed_url (clock (cached_miss s)))
                (preloaded (seed_url (clock (cached_miss s))) (cached_miss s)))
      as [Hpc Hsc].
    by rewrite Hpc, Hsc, write_cached_session_accepts.
  - destruct (initBackground_after s) as [_ Hres].
    destruct Hres as [g ? ?|u ? ? ?|c ? ? ? ? ?|? ? ? Hv|? ? ? ?].
    + by left.
    + by left.
    + left. by rewrite (proj2 (proj2 (proj2 (lock_tiers _ _)))).
    + rewrite (proj2 (proj2 (proj2 (lock_tiers _ _)))).
      rewrite (proj1 (write_cached_tiers _ _)).
      destruct (persisted_accepts _ _).
      * right. right. eexists _, _. split; [done|]. split.
        -- apply lock_tiers.
        -- rewrite requests_lock, requests_write_cached, requests_preloaded, Hv.
           apply elem_of_app. right. by apply list_elem_of_singleton.
      * change (persisted_tier (preloaded ?u ?x)) with (persisted_tier x).
        destruct (cached_miss_persisted s) as [-> | ->]; auto.
    + change (persisted_tier (preloaded ?u ?x)) with (persisted_tier x).
      destruct (cached_miss_persisted s) as [-> | ->]; auto.
Qed.

Lemma init_persists_only_fresh_urls_witness :
  (backgroundUrl (after Init remembered_page) = other_url ∧
   session_tier (after Init remembered_page) = Some other_url ∧
   persisted_tier (after Init remembered_page)
     = Some (Parsed {| url := other_url; timestamp := 1699999999000 |})) ∧
  (backgroundUrl (after Init first_visit)
     = "https://loliapi.com/acg/?seed=1700000000000" ∧
   persisted_tier (after Init first_visit)
     = Some (Parsed {| url := "https://loliapi.com/acg/?seed=1700000000000";
                       timestamp := 1700000000120 |})).
Proof.
  destruct (init_persists_only_fresh_urls remembered_page) as (Hcached & _ & _).
  destruct (init_persists_only_fresh_urls first_visit) as (_ & Hfresh & _).
  destruct (Hcached {| url := other_url; timestamp := 1699999999000 |}
              eq_refl eq_refl eq_refl eq_refl eq_refl eq_refl)
    as (Hb & _ & Hs & _ & Hp).
  destruct (Hfresh eq_refl eq_refl eq_refl eq_refl) as (Hb' & _ & _ & Hp').
  exact (conj (conj Hb (conj Hs Hp)) (conj Hb' Hp')).
Defined.

(** C3, as stated, fails where a storage refuses the write. On a first
    visit to a browser whose persisted storage has no room, the generated
    URL passes its preload and is adopted, and the persisted tier is
    still empty afterwards. In a browser whose session storage has no
    room, the remembered URL passes its preload and is adopted, and the
    session tier is still empty afterwards. *)
Lemma fresh_url_not_persisted_without_room :
  (truthy (memory_tier no_room_visit) = false ∧
   truthy (session_tier no_room_visit) = false ∧
   cached_read no_room_visit = None ∧
   verdict (seed_url (clock no_room_visit)) no_room_visit = true ∧
   backgroundUrl (after Init no_room_visit) = seed_url (clock no_room_visit) ∧
   session_tier (after Init no_room_visit)
     = Some (seed_url (clock no_room_visit)) ∧
   persisted_tier (after Init no_room_visit) = None) ∧
  (truthy (memory_tier remembered_crowded_page) = false ∧
   truthy (session_tier remembered_crowded_page) = false ∧
   cached_read remembered_crowded_page = Some other_url ∧
   verdict other_url remembered_crowded_page = true ∧
   backgroundUrl (after Init remembered_crowded_page) = other_url ∧
   session_tier (after Init remembered_crowded_page) = None).
Proof. by vm_compute. Qed.

(** ** The session lock (lines 121-173) *)

Section Lock.

Implicit Types (s : state) (u : string).

(** A pass that starts under the lock takes one of the two early returns
    of lines 125-128 and 133-138: it awaits nothing. *)
Lemma locked_init u s :
  locked u s →
  initBackground s = (Ok (), with_global (Some u) (with_backgroundUrl u s)).
Proof.
  intros (Hs & Hu & [Hm | Hm]).
  - rewrite init_memory; rewrite Hm; [|done]. cbn [default from_option id].
    f_equal. destruct s. simpl in *. by subst.
  - rewrite init_session; rewrite ?Hs; [|done..]. done.
Qed.

End Lock.

(** C2, as amended. Let the session tier hold a non-empty URL and let
    the memory tier be empty or hold the same URL, whatever the persisted
    tier holds. A resolution pass started in such a state returns without
    awaiting anything: it sets [backgroundUrl] to that URL and the memory
    tier to the same, requests no image, writes no storage and takes no
    time. The session tier still holds the URL afterwards and the memory
    tier agrees with it, so a pass started next yields the same URL. *)
Theorem session_lock_is_stable (s : state) (u : string) :
  locked u s →
  initBackground s = (Ok (), with_global (Some u) (with_backgroundUrl u s)) ∧
  backgroundUrl (after Init s) = u ∧
  session_tier (after Init s) = Some u ∧
  memory_tier (after Init s) = Some u ∧
  locked u (after Init s) ∧
  window (after Init s) = window s ∧
  trace (after Init s) = trace s ∧
  clock (after Init s) = clock s.
Proof.
  intros Hl. pose proof (locked_init u s Hl) as Hrun.
  unfold after, run. rewrite Hrun. cbn [snd].
  destruct Hl as (Hs & Hu & _).
  split_and!; try done. unfold locked. split_and!; auto.
Qed.

Lemma session_lock_is_stable_witness :
  (backgroundUrl (after Init returning_page) = old_url ∧
   session_tier (after Init returning_page) = Some old_url ∧
   trace (after Init returning_page) = []) ∧
  (backgroundUrl (after Init (mount wiped_page)) = old_url ∧
   session_tier (after Init (mount wiped_page)) = Some old_url ∧
   trace (after Init (mount wiped_page)) = []).
Proof.
  assert (Hfirst : locked old_url returning_page).
  { unfold locked. split; [reflexivity|]. split; [reflexivity|].
    right. reflexivity. }
  assert (Hnext : locked old_url (mount wiped_page)).
  { unfold locked. split; [reflexivity|]. split; [reflexivity|].
    left. reflexivity. }
  destruct (session_lock_is_stable returning_page old_url Hfirst)
    as (_ & Hb & Hs & _ & _ & _ & Ht & _).
  destruct (session_lock_is_stable (mount wiped_page) old_url Hnext)
    as (_ & Hb' & Hs' & _ & _ & _ & Ht' & _).
  exact (conj (conj Hb (conj Hs Ht)) (conj Hb' (conj Hs' Ht'))).
Defined.

(** C2, as stated, fails when the memory tier disagrees with the session
    tier. On a page whose session storage is full and locked on
    [old_url]: a first pass resolves to [old_url]; a refresh then succeeds,
    moves the memory tier to the new URL and cannot write the session
    tier, which stays on [old_url]; the next provider to mount resolves to
    the new URL although the session tier never changed. *)
Lemma memory_tier_overrides_session_lock :
  session_tier crowded_page = Some old_url ∧
  backgroundUrl (after Init crowded_page) = old_url ∧
  session_tier (after Refresh (after Init crowded_page)) = Some old_url ∧
  session_tier (remount (after Refresh (after Init crowded_page))) = Some old_url ∧
  backgroundUrl (remount (after Refresh (after Init crowded_page)))
    = "https://loliapi.com/acg/?seed=1700000000000" ∧
  backgroundUrl (remount (after Refresh (after Init crowded_page))) ≠ old_url.
Proof. by vm_compute. Qed.

(** ** Failed preloads (lines 140-169, 179-190) *)

(** C5, as stated, fails when the generated URL is the URL that has just
    failed. The browser remembers the URL seeded 1700000000030; at
    1700000000000 its preload fails after 30 ms, so the URL generated next
    (line 156) is seeded 1700000000030 as well: it is preloaded again,
    loads, and is written to all three tiers. *)
Lemma failed_url_regenerated_and_stored :
  memory_tier flaky_page = None ∧ session_tier flaky_page = None ∧
  requests (after Init flaky_page)
  = [Preload 1700000000000 "https://loliapi.com/acg/?seed=1700000000030" false;
     Preload 1700000000030 "https://loliapi.com/acg/?seed=1700000000030" true] ∧
  backgroundUrl (after Init flaky_page)
  = "https://loliapi.com/acg/?seed=1700000000030" ∧
  memory_tier (after Init flaky_page)
  = Some "https://loliapi.com/acg/?seed=1700000000030" ∧
  session_tier (after Init flaky_page)
  = Some "https://loliapi.com/acg/?seed=1700000000030" ∧
  persisted_tier (after Init flaky_page)
  = Some (Parsed {| url := "https://loliapi.com/acg/?seed=1700000000030";
                    timestamp := 1700000000150 |}).
Proof. by vm_compute. Qed.

Section FailedPreload.

Implicit Types (s : state) (u c : string).

Lemma cached_miss_session s : session_tier (cached_miss s) = session_tier s.
Proof.
  unfold cached_miss, cached_sweep.
  destruct (cached_read s) as [c|].
  - destruct (truthy (Some c)); [|done].
    by rewrite (proj2 (remove_persisted_tiers _)).
  - repeat case_match; try done. apply remove_persisted_tiers.
Qed.

Lemma cached_miss_candidate s c :
  cached_read s = Some c → truthy (Some c) = true →
  cached_miss s = remove_persisted (preloaded c s) ∧
  clock (cached_miss s) = clock s + elapsed c s ∧
  persisted_tier (cached_miss s) = None.
Proof.
  intros Hr Ht. unfold cached_miss. rewrite Hr, Ht. split_and!; [done| |].
  - by rewrite (proj1 (proj2 (proj2 (proj2 (remove_persisted_provider _))))).
  - apply remove_persisted_tiers.
Qed.

(** A URL none of whose preloads succeeded in a pass is, after the pass,
    only where it already was. *)
Lemma resolution_keeps_failed_out s s' u l :
  resolution s s' → requests s' = requests s ++ l →
  (∃ t, Preload t u false ∈ l) → (∀ t, Preload t u true ∉ l) →
  (backgroundUrl s' = u → backgroundUrl s = u) ∧
  (memory_tier s' = Some u → memory_tier s = Some u) ∧
  (session_tier s' = Some u → session_tier s = Some u) ∧
  (persisted_url s' = Some u → persisted_url s = Some u).
Proof.
  intros Hres Hreq [t Hfail] Hnone.
  destruct Hres as [g ? ?|v ? ? ?|c ? ? Hr Ht Hv|? ? Hun Hv|? ? Hun Hv].
  - simpl in Hreq. replace l with (@nil event) in Hfail.
    + by apply elem_of_nil in Hfail.
    + apply (app_inv_head (requests s)). by rewrite app_nil_r.
  - simpl in Hreq. replace l with (@nil event) in Hfail.
    + by apply elem_of_nil in Hfail.
    + apply (app_inv_head (requests s)). by rewrite app_nil_r.
  - rewrite requests_lock, requests_preloaded, Hv in Hreq.
    apply app_inv_head in Hreq. subst l.
    apply list_elem_of_singleton in Hfail. discriminate.
  - set (s2 := cached_miss s) in *. set (new := seed_url (clock s2)) in *.
    rewrite requests_lock, requests_write_cached, requests_preloaded, Hv in Hreq.
    unfold s2 at 1 in Hreq. rewrite requests_cached_miss, <- app_assoc in Hreq.
    apply app_inv_head in Hreq. subst l.
    assert (Hne : new ≠ u).
    { intros ->. apply (Hnone (clock s2)).
      apply elem_of_app. right. by apply list_elem_of_singleton. }
    destruct (lock_tiers new (write_cached new (preloaded new s2)))
      as (Hb & Hg & Hse & Hpe).
    destruct (write_cached_tiers new (preloaded new s2)) as [Hpc Hsc].
    rewrite Hb, Hg, Hse. unfold persisted_url. rewrite Hpe, Hpc, Hsc.
    split_and!; try congruence.
    + destruct (session_accepts _ _); [congruence|].
      change (session_tier (preloaded new s2)) with (session_tier s2).
      unfold s2. by rewrite cached_miss_session.
    + destruct (persisted_accepts _ _); [simpl; congruence|].
      change (persisted_tier (preloaded new s2)) with (persisted_tier s2).
      unfold s2. destruct (cached_miss_persisted s) as [-> | ->]; done.
  - set (s2 := cached_miss s) in *. set (new := seed_url (clock s2)) in *.
    destruct (cached_miss_provider s) as (Hb & _ & Hg & _).
    unfold persisted_url.
    change (persisted_tier (preloaded new s2)) with (persisted_tier s2).
    change (session_tier (preloaded new s2)) with (session_tier s2).
    change (memory_tier (preloaded new s2)) with (globalBackgroundUrl s2).
    change (backgroundUrl (preloaded new s2)) with (backgroundUrl s2).
    unfold s2. rewrite Hb, Hg, cached_miss_session.
    split_and!; try done.
    destruct (cached_miss_persisted s) as [-> | ->]; done.
Qed.

End FailedPreload.

(** C5, as amended. A failed preload stores nothing.
    - A refresh whose preload fails leaves [backgroundUrl], [isLoaded],
      the memory tier and both storages unchanged.
    - When the persisted URL fails its preload during a resolution pass,
      the pass goes on to the generation step: its image requests are the
      failed one for the persisted URL followed by one for the URL
      generated at the time the first ended.
    - After a resolution pass, a URL whose preload failed in the pass is
      [backgroundUrl] or in a tier only if it already was before the
      pass, or if another preload of the same URL succeeded in the same
      pass (the URL generated at line 156 can be the very URL that
      failed at line 145). *)
Theorem failed_preload_is_never_stored (s : state) :
  (verdict (seed_url (clock s)) s = false → same_tiers s (after Refresh s)) ∧
  (∀ c,
     truthy (memory_tier s) = false → truthy (session_tier s) = false →
     cached_read s = Some c → truthy (Some c) = true → verdict c s = false →
     let t := clock s + elapsed c s in
     requests (after Init s)
     = requests s ++ [Preload (clock s) c false;
                      Preload t (seed_url t)
                        (fst (settle (backend s t (seed_url t))))]) ∧
  (∀ u l,
     requests (after Init s) = requests s ++ l →
     (∃ t, Preload t u false ∈ l) → (∀ t, Preload t u true ∉ l) →
     (backgroundUrl (after Init s) = u → backgroundUrl s = u) ∧
     (memory_tier (after Init s) = Some u → memory_tier s = Some u) ∧
     (session_tier (after Init s) = Some u → session_tier s = Some u) ∧
     (persisted_url (after Init s) = Some u → persisted_url s = Some u)).
Proof.
  split_and!.
  - intros Hv. by rewrite refreshBackground_after, Hv.
  - intros c Hm Hs Hr Ht Hv. cbn zeta.
    assert (Hun : cached_usable s = false).
    { unfold cached_usable. by rewrite Hr, Ht, Hv. }
    destruct (cached_miss_candidate s c Hr Ht) as (_ & Hck & _).
    destruct (cached_miss_clock_backend s) as [Hbe _].
    assert (Hv2 : verdict (seed_url (clock (cached_miss s))) (cached_miss s)
                  = fst (settle (backend s (clock s + elapsed c s)
                                   (seed_url (clock s + elapsed c s))))).
    { unfold verdict. by rewrite Hbe, Hck. }
    unfold after, run. rewrite (init_fresh s Hm Hs Hun). cbn zeta.
    destruct (verdict _ (cached_miss s)) eqn:Hv'; cbn [snd];
      rewrite ?requests_lock, ?requests_write_cached, requests_preloaded,
        requests_cached_miss, Hr, Ht, Hv, Hv', Hck, <- Hv2, <- app_assoc;
      done.
  - intros u l. apply resolution_keeps_failed_out, initBackground_after.
Qed.

Lemma failed_preload_is_never_stored_witness :
  same_tiers server_side (after Refresh server_side) ∧
  requests (after Init broken_cache_page)
  = [Preload 1700000000000 other_url false;
     Preload 1700000000030 "https://loliapi.com/acg/?seed=1700000000030" true] ∧
  memory_tier (after Init broken_cache_page) ≠ Some other_url ∧
  session_tier (after Init broken_cache_page) ≠ Some other_url.
Proof.
  destruct (failed_preload_is_never_stored server_side) as (Hrefresh & _ & _).
  destruct (failed_preload_is_never_stored broken_cache_page) as (_ & Hnext & Hout).
  split; [exact (Hrefresh eq_refl)|].
  split; [exact (Hnext other_url eq_refl eq_refl eq_refl eq_refl eq_refl)|].
  assert (Hin : ∃ t, Preload t other_url false
                     ∈ [Preload 1700000000000 other_url false;
                        Preload 1700000000030
                          "https://loliapi.com/acg/?seed=1700000000030" true]).
  { exists 1700000000000. apply elem_of_cons. by left. }
  assert (Hno : ∀ t, Preload t other_url true
                     ∉ [Preload 1700000000000 other_url false;
                        Preload 1700000000030
                          "https://loliapi.com/acg/?seed=1700000000030" true]).
  { intros t Hel. apply elem_of_cons in Hel as [Heq | Hel]; [discriminate|].
    apply list_elem_of_singleton in Hel. discriminate. }
  destruct (Hout other_url _ eq_refl Hin Hno) as (_ & Hmem & Hses & _).
  split.
  - intros Hm. apply Hmem in Hm. discriminate.
  - intros Hs. apply Hses in Hs. discriminate.
Defined.

(** * Further properties of the code *)

(** ** Generated URLs (lines 88-92) *)

Lemma seed_url_inj (t1 t2 : Z) : seed_url t1 = seed_url t2 → t1 = t2.
Proof.
  unfold seed_url. intros H.
  apply (inj (String.app "https://loliapi.com/acg/?seed=")) in H.
  by apply (inj pretty) in H.
Qed.

(** X1. [fetchNewBackground] changes nothing, and two calls return the
    same URL exactly when the clock reads the same millisecond at both:
    a URL generated later is a different URL. *)
Theorem fetchNewBackground_unique (s1 s2 : state) :
  snd (fetchNewBackground s1) = s1 ∧
  (fst (fetchNewBackground s1) = fst (fetchNewBackground s2) ↔ clock s1 = clock s2).
Proof.
  rewrite !fetchNewBackground_eq. cbn [fst snd]. split; [done|]. split.
  - intros H. apply seed_url_inj. congruence.
  - by intros ->.
Qed.

(** ** Write then read (lines 33-86) *)

(** X3. Reading the session tier right after writing [u] to it returns
    [u] if the storage accepted the write, and otherwise what a read would
    have returned before the write. *)
Theorem session_write_then_read (u : string) (s : state) :
  fst (getSessionBackground (snd (setSessionBackground u s)))
  = if session_accepts u s then Ok (Some u) else fst (getSessionBackground s).
Proof.
  rewrite setSessionBackground_eq. cbn [snd].
  rewrite !getSessionBackground_eq. cbn [fst].
  rewrite (proj1 (write_session_tiers u s)).
  by destruct (session_accepts u s).
Qed.

(** X4. A URL cached at time T in a storage that accepts the write is
    what a read returns at any time up to T + 86,400,000 ms inclusive, and
    that read changes nothing; the first read after that returns null and
    deletes the record. *)
Theorem cached_write_then_read (u : string) (s : state) (d : Z) :
  let written := with_clock (clock s + d) (snd (setCachedBackground u s)) in
  persisted_accepts {| url := u; timestamp := clock s |} s = true →
  (d ≤ BG_EXPIRE_TIME → getCachedBackground written = (Ok (Some u), written)) ∧
  (BG_EXPIRE_TIME < d →
     fst (getCachedBackground written) = Ok None ∧
     persisted_tier (snd (getCachedBackground written)) = None).
Proof.
  cbn zeta. intros Hacc. rewrite setCachedBackground_eq. cbn [snd].
  rewrite getCachedBackground_eq. cbn [fst snd].
  assert (Hp : persisted_tier (with_clock (clock s + d) (write_cached u s))
               = Some (Parsed {| url := u; timestamp := clock s |})).
  { change (persisted_tier (with_clock ?t ?x)) with (persisted_tier x).
    by rewrite (proj1 (write_cached_tiers u s)), Hacc. }
  unfold cached_read, cached_sweep, expired. rewrite Hp.
  cbn [timestamp url clock with_clock].
  split; intros Hd.
  - destruct (Z.gtb_spec (clock s + d - clock s) BG_EXPIRE_TIME); [lia|done].
  - destruct (Z.gtb_spec (clock s + d - clock s) BG_EXPIRE_TIME); [|lia].
    split; [done|]. apply remove_persisted_tiers.
Qed.

Lemma cached_write_then_read_witness :
  getCachedBackground
    (with_clock (clock first_visit + BG_EXPIRE_TIME)
       (snd (setCachedBackground old_url first_visit)))
  = (Ok (Some old_url),
     with_clock (clock first_visit + BG_EXPIRE_TIME)
       (snd (setCachedBackground old_url first_visit))) ∧
  fst (getCachedBackground
         (with_clock (clock first_visit + (BG_EXPIRE_TIME + 1))
            (snd (setCachedBackground old_url first_visit)))) = Ok None.
Proof.
  pose proof (cached_write_then_read old_url first_visit BG_EXPIRE_TIME eq_refl)
    as [Hin _].
  pose proof (cached_write_then_read old_url first_visit (BG_EXPIRE_TIME + 1)
                eq_refl) as [_ Hout].
  split.
  - apply Hin. reflexivity.
  - apply Hout. reflexivity.
Defined.

(** X5. A null read of the persisted tier is final. If
    [getCachedBackground] returns null, then read again at any time - with
    nothing written in between - it returns null and changes nothing: an
    expired record was deleted by the first read, and an absent or
    unparsable one is null whatever the clock says. If it returns a URL,
    the next read returns the same URL, or null once the record has aged
    past 24 hours, in which case that read deletes the record. *)
Theorem getCachedBackground_again (s : state) (t : Z) :
  let first := getCachedBackground s in
  let second := getCachedBackground (with_clock t (snd first)) in
  (fst first = Ok None → second = (Ok None, with_clock t (snd first))) ∧
  (∀ u, fst first = Ok (Some u) →
        fst second = Ok (Some u) ∨
        (fst second = Ok None ∧ persisted_tier (snd second) = None)).
Proof.
  cbn zeta. rewrite !getCachedBackground_eq. cbn [fst snd].
  unfold cached_read, cached_sweep.
  destruct (persisted_tier s) as [[text|data]|] eqn:Hp.
  - change (persisted_tier (with_clock t s)) with (persisted_tier s).
    rewrite Hp. by split.
  - destruct (expired data s) eqn:He.
    + change (persisted_tier (with_clock t (remove_persisted s)))
        with (persisted_tier (remove_persisted s)).
      rewrite (proj1 (remove_persisted_tiers s)). by split.
    + change (persisted_tier (with_clock t s)) with (persisted_tier s).
      rewrite Hp. split; [done|]. intros u [= <-].
      destruct (expired data (with_clock t s)); [right|by left].
      split; [done|].
      change (persisted_tier (remove_persisted (with_clock t s)) = None).
      apply remove_persisted_tiers.
  - change (persisted_tier (with_clock t s)) with (persisted_tier s).
    rewrite Hp. by split.
Qed.

Lemma getCachedBackground_again_witness :
  getCachedBackground
    (with_clock 1800000000000 (snd (getCachedBackground stale_page)))
  = (Ok None, with_clock 1800000000000 (snd (getCachedBackground stale_page))) ∧
  fst (getCachedBackground
         (with_clock 1700000000000 (snd (getCachedBackground day_old_page))))
  = Ok (Some other_url) ∧
  fst (getCachedBackground
         (with_clock 1700000000001 (snd (getCachedBackground day_old_page))))
  = Ok None.
Proof.
  destruct (getCachedBackground_again stale_page 1800000000000) as [Hnull _].
  destruct (getCachedBackground_again day_old_page 1700000000000) as [_ Hsame].
  destruct (getCachedBackground_again day_old_page 1700000000001) as [_ Hgone].
  split; [exact (Hnull eq_refl)|]. split.
  - destruct (Hsame other_url eq_refl) as [H | [H _]]; [exact H|].
    vm_compute in H. discriminate.
  - destruct (Hgone other_url eq_refl) as [H | [H _]]; [|exact H].
    vm_compute in H. discriminate.
Defined.

(** ** Actions as sequences of elementary effects *)

Section Effects.

Implicit Types (s : state) (u : string).

Lemma effects_lock u s : truthy (Some u) = true → rtc effect s (lock u s).
Proof.
  intros Hu. unfold lock.
  eapply rtc_l; [apply (EffBackgroundUrl u)|].
  eapply rtc_l; [by apply (EffGlobal u)|].
  apply rtc_once, EffSession.
Qed.

Lemma effects_cached_sweep s : rtc effect s (cached_sweep s).
Proof.
  unfold cached_sweep. repeat case_match; try apply rtc_refl.
  apply rtc_once, EffRemove.
Qed.

Lemma effects_cached_miss s : rtc effect s (cached_miss s).
Proof.
  unfold cached_miss. destruct (cached_read s) as [c|].
  - destruct (truthy (Some c)); [|apply rtc_refl].
    eapply rtc_l; [apply (EffPreload c)|]. apply rtc_once, EffRemove.
  - apply effects_cached_sweep.
Qed.

Lemma effects_resolution s s' : resolution s s' → rtc effect s s'.
Proof.
  destruct 1 as [g ? ?|v ? ? Hv|c ? ? ? Hc ?|? ? ? ?|? ? ? ?].
  - apply rtc_once, EffBackgroundUrl.
  - eapply rtc_l; [apply (EffBackgroundUrl v)|]. by apply rtc_once, EffGlobal.
  - eapply rtc_l; [apply (EffPreload c)|]. by apply effects_lock.
  - etrans; [apply effects_cached_miss|].
    eapply rtc_l; [apply (EffPreload (seed_url (clock (cached_miss s))))|].
    eapply rtc_l; [apply (EffCached (seed_url (clock (cached_miss s))))|].
    by apply effects_lock.
  - etrans; [apply effects_cached_miss|]. apply rtc_once, EffPreload.
Qed.

Lemma effects_after a s : rtc effect s (after a s).
Proof.
  destruct a.
  - apply effects_resolution, initBackground_after.
  - apply rtc_once, (EffIsLoaded true).
  - rewrite refreshBackground_after.
    eapply rtc_l; [apply (EffPreload (seed_url (clock s)))|].
    destruct (verdict _ s); [|apply rtc_refl].
    unfold refreshed.
    eapply rtc_l; [apply (EffBackgroundUrl (seed_url (clock s)))|].
    eapply rtc_l; [by apply (EffGlobal (seed_url (clock s)))|].
    eapply rtc_l; [apply (EffSession (seed_url (clock s)))|].
    eapply rtc_l; [apply (EffCached (seed_url (clock s)))|].
    apply rtc_once, EffIsLoaded.
Qed.

Lemma effects_remount s : rtc effect s (remount s).
Proof.
  unfold remount, mount.
  eapply rtc_l; [apply (EffBackgroundUrl "")|].
  eapply rtc_l; [apply (EffIsLoaded false)|].
  apply effects_after.
Qed.

(** A property kept by every effect is kept by every action and mount. *)
Lemma effects_preserve (P : state → Prop) s s' :
  (∀ x y, effect x y → P x → P y) → rtc effect s s' → P s → P s'.
Proof.
  intros Hstep Hrun. induction Hrun as [|x y z Hxy _ IH]; [done|].
  intros Hx. apply IH. by eapply Hstep.
Qed.

End Effects.

(** ** Every action returns (lines 121-190) *)

Section Bounds.

Implicit Types (s : state) (u : string).

Lemma cached_miss_requests s :
  ∃ l, requests (cached_miss s) = requests s ++ l ∧ (length l ≤ 1)%nat.
Proof.
  eexists. split; [apply requests_cached_miss|].
  destruct (cached_read s) as [c|]; [|simpl; lia].
  destruct (truthy (Some c)); simpl; lia.
Qed.

Lemma clock_write_cached u s : clock (write_cached u s) = clock s.
Proof. apply write_cached_provider. Qed.

Lemma resolution_requests s s' :
  resolution s s' →
  ∃ l, requests s' = requests s ++ l ∧ (length l ≤ 2)%nat.
Proof.
  destruct 1 as [g ? ?|v ? ? ?|c ? ? ? ? ?|? ? ? ?|? ? ? ?].
  - exists []. split; [by rewrite app_nil_r|simpl; lia].
  - exists []. split; [by rewrite app_nil_r|simpl; lia].
  - eexists. rewrite requests_lock, requests_preloaded. split; [done|].
    simpl. lia.
  - destruct (cached_miss_requests s) as (l & Hreq & Hlen).
    eexists. rewrite requests_lock, requests_write_cached, requests_preloaded.
    rewrite Hreq, <- app_assoc. split; [done|].
    rewrite length_app. simpl. lia.
  - destruct (cached_miss_requests s) as (l & Hreq & Hlen).
    eexists. rewrite requests_preloaded, Hreq, <- app_assoc. split; [done|].
    rewrite length_app. simpl. lia.
Qed.

End Bounds.

(** X6. In a browser (a [window], hence an [Image], exists) every action
    of the provider returns without throwing: the one storage call that
    is outside any [try], the [localStorage.removeItem] of line 150, is
    only reached when that storage has just been read without error. A
    resolution pass makes at most two image requests, a refresh exactly
    one, [setLoaded] none. *)
Theorem actions_return_normally (a : action) (s : state) (w : browser) :
  window s = Some w →
  run a s = (Ok (), after a s) ∧
  ∃ l, requests (after a s) = requests s ++ l ∧
       match a with
       | Init => (length l ≤ 2)%nat
       | SetLoaded => l = []
       | Refresh => ∃ valid, l = [Preload (clock s) (seed_url (clock s)) valid]
       end.
Proof.
  intros _. destruct a.
  - destruct (initBackground_after s) as [Hrun Hres].
    split; [done|]. by apply resolution_requests.
  - split; [done|]. exists []. split; [by rewrite app_nil_r|done].
  - split; [apply refreshBackground_total|].
    rewrite refreshBackground_after.
    eexists. split; [|by eexists].
    destruct (verdict (seed_url (clock s)) s) eqn:Hv.
    + by rewrite requests_refreshed, requests_preloaded.
    + by rewrite requests_preloaded.
Qed.

Lemma actions_return_normally_witness :
  initBackground broken_cache_page = (Ok (), after Init broken_cache_page) ∧
  refreshBackground first_visit = (Ok (), after Refresh first_visit).
Proof.
  exact (conj (proj1 (actions_return_normally Init broken_cache_page _ eq_refl))
              (proj1 (actions_return_normally Refresh first_visit _ eq_refl))).
Defined.

(** ** What a page keeps, whatever happens on it *)

Ltac by_cases_on_items :=
  intros; unfold session_item, local_item, stamped, memory_tier in *;
  by_cases_on_storage.

Section PageInvariants.

Implicit Types (s : state) (u k : string).

Lemma page_step_effects s s' :
  page_step s s' →
  rtc effect s s' ∨ ∃ t, clock s ≤ t ∧ s' = with_clock t s.
Proof.
  destruct 1 as [a s|s|s t Ht].
  - left. apply effects_after.
  - left. apply effects_remount.
  - right. eauto.
Qed.

(** A property kept by every effect and by the passing of time is kept
    along every run of a page. *)
Lemma page_run_preserve (P : state → Prop) s s' :
  (∀ x y, effect x y → P x → P y) →
  (∀ x t, clock x ≤ t → P x → P (with_clock t x)) →
  rtc page_step s s' → P s → P s'.
Proof.
  intros Heff Hclock Hrun. induction Hrun as [|x y z Hxy _ IH]; [done|].
  intros Hx. apply IH.
  destruct (page_step_effects _ _ Hxy) as [Hrtc | (t & Ht & ->)].
  - by apply (effects_preserve P x y).
  - by apply Hclock.
Qed.

Lemma effect_other_keys s s' k :
  effect s s' →
  (k ≠ BG_SESSION_KEY → session_item k s' = session_item k s) ∧
  (k ≠ BG_CACHE_KEY → local_item k s' = local_item k s).
Proof.
  destruct 1 as [| | |u x|u x|x|u x]; try done.
  - revert u x. by_cases_on_items; intros Hk; by simplify_map_eq.
  - revert u x. by_cases_on_items; intros Hk; by simplify_map_eq.
  - revert x. by_cases_on_items; intros Hk; by simplify_map_eq.
Qed.

Lemma effect_memory s s' :
  effect s s' → truthy (memory_tier s) = true → truthy (memory_tier s') = true.
Proof.
  unfold memory_tier. destruct 1 as [| |v x Hv|u x|u x|x|u x]; try done.
  - by rewrite (proj1 (proj2 (proj2 (write_session_provider _ _)))).
  - by rewrite (proj1 (proj2 (proj2 (write_cached_provider _ _)))).
  - by rewrite (proj1 (proj2 (proj2 (remove_persisted_provider _)))).
Qed.

Lemma effect_stamped s s' : effect s s' → stamped s → stamped s'.
Proof.
  destruct 1 as [| | |u x|u x|x|u x]; try done.
  - unfold stamped. rewrite (proj2 (write_session_tiers _ _)).
    by rewrite (proj1 (proj2 (proj2 (proj2 (write_session_provider _ _))))).
  - unfold stamped. rewrite (proj1 (write_cached_tiers _ _)), clock_write_cached.
    intros Hx data. destruct (persisted_accepts _ _); [|apply Hx].
    intros [= <-]. simpl. lia.
  - unfold stamped. by rewrite (proj1 (remove_persisted_tiers _)).
  - unfold stamped.
    change (persisted_tier (preloaded u x)) with (persisted_tier x).
    intros Hx data Hd. apply Hx in Hd. simpl.
    pose proof (elapsed_nonneg u x). lia.
Qed.

End PageInvariants.

(** X7. Nothing that happens on a page touches any key of the session
    storage other than [app_background_session], or any key of the
    persisted storage other than [app_background_cache]. *)
Theorem other_keys_untouched (s s' : state) (k : string) :
  rtc page_step s s' →
  (k ≠ BG_SESSION_KEY → session_item k s' = session_item k s) ∧
  (k ≠ BG_CACHE_KEY → local_item k s' = local_item k s).
Proof.
  intros Hrun.
  apply (page_run_preserve
           (λ x, (k ≠ BG_SESSION_KEY → session_item k x = session_item k s) ∧
                 (k ≠ BG_CACHE_KEY → local_item k x = local_item k s))
           s s'); [| |done|done].
  - intros x y Hxy [Hs Hl].
    destruct (effect_other_keys x y k Hxy) as [Hs' Hl'].
    split; intros Hk; [rewrite Hs'|rewrite Hl']; auto.
  - by intros x t _ Hx.
Qed.

(** X8. Once the memory tier holds a non-empty URL it holds one for the
    rest of the page's life: no action clears it. *)
Theorem memory_tier_never_cleared (s s' : state) :
  rtc page_step s s' →
  truthy (memory_tier s) = true → truthy (memory_tier s') = true.
Proof.
  intros Hrun.
  apply (page_run_preserve (λ x, truthy (memory_tier x) = true) s s');
    [apply effect_memory| |done].
  by intros x t _ Hx.
Qed.

(** X9. The timestamp of the persisted record is never in the future:
    if it is not when a page starts, it is not after anything that
    happens on the page, so the age computed at line 63 is never
    negative. *)
Theorem persisted_record_never_postdated (s s' : state) :
  rtc page_step s s' → stamped s → stamped s'.
Proof.
  intros Hrun.
  apply (page_run_preserve stamped s s'); [apply effect_stamped| |done].
  intros x t Ht Hx data Hd. apply Hx in Hd. simpl. lia.
Qed.

Lemma other_keys_untouched_witness :
  session_item "cart" (after Refresh (remount busy_page)) = Some "3 items" ∧
  local_item "theme" (after Refresh (remount busy_page))
    = Some (Unparsable "dark").
Proof.
  assert (Hrun : rtc page_step busy_page (after Refresh (remount busy_page))).
  { eapply rtc_l; [apply StepMount|]. apply rtc_once, StepAction. }
  destruct (other_keys_untouched _ _ "cart" Hrun) as [Hs _].
  destruct (other_keys_untouched _ _ "theme" Hrun) as [_ Hl].
  split.
  - rewrite Hs; [reflexivity|discriminate].
  - rewrite Hl; [reflexivity|discriminate].
Defined.

Lemma memory_tier_never_cleared_witness :
  truthy (memory_tier (after Refresh (remount warm_page))) = true.
Proof.
  apply (memory_tier_never_cleared warm_page).
  - eapply rtc_l; [apply StepMount|]. apply rtc_once, StepAction.
  - reflexivity.
Defined.

Lemma persisted_record_never_postdated_witness :
  stamped (after Refresh (remount remembered_page)).
Proof.
  apply (persisted_record_never_postdated remembered_page).
  - eapply rtc_l; [apply StepMount|]. apply rtc_once, StepAction.
  - intros data Hd. vm_compute in Hd. injection Hd as <-.
    vm_compute. discriminate.
Defined.

(** ** What the provider shows (lines 117-190) *)

Section Shown.

Implicit Types (s : state) (u : string).

Lemma resolution_coherent s s' : resolution s s' → coherent s → coherent s'.
Proof.
  unfold coherent.
  destruct 1 as [g Hg ?|v ? ? ?|c ? ? ? ? ?|? ? ? ?|? ? ? ?]; intros Hs.
  - right. simpl. done.
  - by right.
  - right. destruct (lock_tiers c (preloaded c s)) as (-> & -> & _). done.
  - right.
    destruct (lock_tiers (seed_url (clock (cached_miss s)))
                (write_cached (seed_url (clock (cached_miss s)))
                   (preloaded (seed_url (clock (cached_miss s))) (cached_miss s))))
      as (-> & -> & _).
    done.
  - destruct (cached_miss_provider s) as (Hb & _ & Hg & _).
    unfold memory_tier. simpl. by rewrite Hb, Hg.
Qed.

(** A provider that shows the memory URL is what a further mount gives. *)
Lemma remount_fixed s :
  memory_tier s = Some (backgroundUrl s) → truthy (memory_tier s) = true →
  isLoaded s = false → remount s = s.
Proof.
  intros Hm Ht Hl. unfold remount, after, run.
  rewrite init_memory; [|done]. cbn [snd].
  change (memory_tier (mount s)) with (memory_tier s). rewrite Hm.
  destruct s. simpl in *. by subst.
Qed.

End Shown.

(** X10. An action changes what its provider shows only to the URL
    the memory tier holds: if [backgroundUrl] after an action differs from
    [backgroundUrl] before it, it is the in-memory URL. *)
Theorem shown_url_changes_to_memory_url (a : action) (s : state) :
  backgroundUrl (after a s) ≠ backgroundUrl s →
  memory_tier (after a s) = Some (backgroundUrl (after a s)).
Proof.
  destruct a.
  - destruct (initBackground_after s) as [_ Hres].
    destruct Hres as [g Hg ?|v ? ? ?|c ? ? ? ? ?|? ? ? ?|? ? ? ?]; intros Hne.
    + done.
    + done.
    + by destruct (lock_tiers c (preloaded c s)) as (-> & -> & _).
    + by destruct (lock_tiers (seed_url (clock (cached_miss s)))
                     (write_cached (seed_url (clock (cached_miss s)))
                        (preloaded (seed_url (clock (cached_miss s)))
                           (cached_miss s))))
        as (-> & -> & _).
    + exfalso. apply Hne. apply cached_miss_provider.
  - intros Hne. by exfalso.
  - rewrite refreshBackground_after.
    destruct (verdict _ s); intros Hne; [|by exfalso].
    by destruct (refreshed_tiers (seed_url (clock s))
                   (preloaded (seed_url (clock s)) s)) as (-> & _ & -> & _).
Qed.

Lemma shown_url_changes_to_memory_url_witness :
  memory_tier (after Refresh (after Init crowded_page))
  = Some (backgroundUrl (after Refresh (after Init crowded_page))).
Proof.
  apply (shown_url_changes_to_memory_url Refresh (after Init crowded_page)).
  vm_compute. discriminate.
Defined.

(** X11. Mounting is idempotent once it has resolved: if a freshly
    mounted provider ends up showing a URL, a further provider mounting
    on that page ends in exactly the same state — same URL, no image
    request, no storage write, no time spent. *)
Theorem remount_idempotent (s : state) :
  backgroundUrl (remount s) ≠ "" → remount (remount s) = remount s.
Proof.
  intros Hshown.
  assert (Hco : coherent (remount s)).
  { apply (resolution_coherent (mount s)); [apply initBackground_after|].
    by left. }
  destruct Hco as [Hempty | Hm]; [done|].
  apply remount_fixed; [done| |].
  - rewrite Hm. by destruct (backgroundUrl (remount s)).
  - unfold remount.
    rewrite (resolution_isLoaded (mount s)); [done|apply initBackground_after].
Qed.

Lemma remount_idempotent_witness :
  remount (remount first_visit) = remount first_visit.
Proof. apply remount_idempotent. vm_compute. discriminate. Defined.

(** X12. After a refresh whose preload succeeded, a provider that mounts
    shows the refreshed URL and makes no image request of its own,
    whatever the storages did with the writes. *)
Theorem mount_after_refresh (s : state) :
  verdict (seed_url (clock s)) s = true →
  backgroundUrl (remount (after Refresh s)) = seed_url (clock s) ∧
  requests (remount (after Refresh s))
    = requests s ++ [Preload (clock s) (seed_url (clock s)) true].
Proof.
  intros Hv. rewrite refreshBackground_after, Hv.
  set (new := seed_url (clock s)). set (s1 := refreshed new (preloaded new s)).
  destruct (refreshed_tiers new (preloaded new s)) as (Hb & _ & Hm & _).
  fold s1 in Hb, Hm.
  unfold remount, after, run. rewrite init_memory.
  - cbn [snd]. change (memory_tier (mount s1)) with (memory_tier s1).
    rewrite Hm. cbn [default from_option id backgroundUrl with_backgroundUrl].
    split; [done|].
    change (requests (with_backgroundUrl new (mount s1))) with (requests s1).
    unfold s1, new. by rewrite requests_refreshed, requests_preloaded, Hv.
  - change (memory_tier (mount s1)) with (memory_tier s1). by rewrite Hm.
Qed.

Lemma mount_after_refresh_witness :
  backgroundUrl (remount (after Refresh crowded_page))
    = "https://loliapi.com/acg/?seed=1700000000000" ∧
  requests (remount (after Refresh crowded_page))
    = [Preload 1700000000000 "https://loliapi.com/acg/?seed=1700000000000" true].
Proof. exact (mount_after_refresh crowded_page eq_refl). Defined.

(** ** Memory and session tier in step (lines 121-190) *)

Section Synced.

Implicit Types (s : state) (u : string).

Lemma effect_session_reliable s s' :
  effect s s' → session_reliable s → session_reliable s'.
Proof.
  unfold session_reliable.
  destruct 1 as [| | |u x|u x|x|u x]; try done;
    intros (w & items & fits & Hw & Hs & Hfits).
  - unfold write_session. rewrite Hw, Hs. simpl. rewrite Hfits.
    by eexists _, _, _.
  - unfold write_cached. rewrite Hw.
    destruct (storage_setItem _ _ _); [|by eexists _, _, _].
    by eexists _, _, _.
  - unfold remove_persisted. rewrite Hw.
    destruct (storage_removeItem _ _); [|by eexists _, _, _].
    by eexists _, _, _.
Qed.

Lemma session_reliable_accepts u s :
  session_reliable s → session_accepts u s = true.
Proof.
  intros (w & items & fits & Hw & Hs & Hfits).
  unfold session_accepts. rewrite Hw, Hs. apply Hfits.
Qed.

Lemma resolution_synced s s' :
  resolution s s' → session_reliable s → synced s → synced s'.
Proof.
  intros Hres Hrel Hsync.
  pose proof (effects_preserve session_reliable s s' effect_session_reliable
                (effects_resolution s s' Hres) Hrel) as Hrel'.
  unfold synced.
  destruct Hres as [g Hg ?|v ? Hv ?|c ? ? ? ? ?|? ? ? ?|? ? ? ?].
  - exact Hsync.
  - intros _. exact Hv.
  - intros _. destruct (lock_tiers c (preloaded c s)) as (_ & -> & -> & _).
    by rewrite session_reliable_accepts.
  - intros _.
    set (x := write_cached (seed_url (clock (cached_miss s)))
                (preloaded (seed_url (clock (cached_miss s))) (cached_miss s))).
    destruct (lock_tiers (seed_url (clock (cached_miss s))) x)
      as (_ & -> & -> & _).
    rewrite session_reliable_accepts; [done|].
    apply (effects_preserve session_reliable s x effect_session_reliable);
      [|done].
    etrans; [apply effects_cached_miss|].
    eapply rtc_l; [apply (EffPreload (seed_url (clock (cached_miss s))))|].
    apply rtc_once, EffCached.
  - change (memory_tier (preloaded ?u ?x)) with (globalBackgroundUrl x).
    change (session_tier (preloaded ?u ?x)) with (session_tier x).
    rewrite cached_miss_session.
    rewrite (proj1 (proj2 (proj2 (cached_miss_provider s)))).
    exact Hsync.
Qed.

Lemma page_step_synced s s' :
  page_step s s' → session_reliable s → synced s → synced s'.
Proof.
  destruct 1 as [[] s|s|s t Ht]; intros Hrel Hsync; try done.
  - apply (resolution_synced s); [apply initBackground_after|done..].
  - rewrite refreshBackground_after.
    destruct (verdict _ s); [|done]. intros _.
    destruct (refreshed_tiers (seed_url (clock s))
                (preloaded (seed_url (clock s)) s)) as (_ & _ & -> & -> & _).
    by rewrite (session_reliable_accepts _ (preloaded (seed_url (clock s)) s)).
  - apply (resolution_synced (mount s)); [apply initBackground_after|done..].
Qed.

Lemma page_step_session_reliable s s' :
  page_step s s' → session_reliable s → session_reliable s'.
Proof.
  intros Hstep. destruct (page_step_effects _ _ Hstep) as [Hrun | (t & _ & ->)].
  - exact (effects_preserve session_reliable s s' effect_session_reliable Hrun).
  - intros Hrel. exact Hrel.
Qed.

End Synced.

(** X13. In a browser whose session storage is available and accepts
    every write, the session tier follows the memory tier: if a non-empty
    in-memory URL is mirrored by the session tier when a page starts, it
    still is after any mounts, refreshes, [setLoaded] calls and lapses of
    time, so what a page shows is what the next page of the session will
    show. *)
Theorem session_follows_memory (s s' : state) :
  rtc page_step s s' → session_reliable s → synced s →
  synced s' ∧ session_reliable s'.
Proof.
  intros Hrun. induction Hrun as [|x y z Hxy _ IH]; [done|].
  intros Hrel Hsync. apply IH.
  - by eapply page_step_session_reliable.
  - by eapply page_step_synced.
Qed.

Lemma session_follows_memory_witness :
  synced (after Refresh (remount returning_page)) ∧
  session_reliable (after Refresh (remount returning_page)).
Proof.
  apply (session_follows_memory returning_page).
  - eapply rtc_l; [apply StepMount|]. apply rtc_once, StepAction.
  - eexists _, _, _. split; [reflexivity|]. split; [reflexivity|]. done.
  - intros Hm. vm_compute in Hm. discriminate.
Defined.

(** ** A pass that resolves nothing (lines 140-169) *)

(** X14. If [backgroundUrl] is empty after a resolution pass, the pass
    found the memory and session tiers empty, left both as they were,
    left the persisted tier as it was or empty, and every image request
    it made - there is at least one - failed. *)
Theorem unresolved_pass_stores_nothing (s : state) :
  backgroundUrl (after Init s) = "" →
  truthy (memory_tier s) = false ∧ truthy (session_tier s) = false ∧
  memory_tier (after Init s) = memory_tier s ∧
  session_tier (after Init s) = session_tier s ∧
  (persisted_tier (after Init s) = persisted_tier s ∨
   persisted_tier (after Init s) = None) ∧
  ∃ l, requests (after Init s) = requests s ++ l ∧ l ≠ [] ∧
       ∀ e, e ∈ l → ∃ t u, e = Preload t u false.
Proof.
  destruct (initBackground_after s) as [_ Hres].
  destruct Hres as [g Hg Ht|v ? Hv Ht|c ? ? ? Ht ?|? ? ? ?|Hm Hs Hun Hv].
  - simpl. intros ->. done.
  - simpl. intros ->. done.
  - rewrite (proj1 (lock_tiers _ _)). intros ->. done.
  - rewrite (proj1 (lock_tiers _ _)). intros Hseed. discriminate.
  - intros _. split_and!; try done.
    + apply cached_miss_provider.
    + change (session_tier (preloaded ?u ?x)) with (session_tier x).
      apply cached_miss_session.
    + change (persisted_tier (preloaded ?u ?x)) with (persisted_tier x).
      apply cached_miss_persisted.
    + eexists. rewrite requests_preloaded, requests_cached_miss, <- app_assoc.
      split; [done|]. rewrite Hv. split.
      * by destruct (_ ++ _) eqn:Hl; [apply app_eq_nil in Hl as [_ ?]|].
      * intros e He. apply elem_of_app in He as [He | He].
        -- unfold cached_usable in Hun.
           destruct (cached_read s) as [c|]; [|by apply elem_of_nil in He].
           destruct (truthy (Some c)); [|by apply elem_of_nil in He].
           simpl in Hun. rewrite Hun in He.
           apply list_elem_of_singleton in He. eauto.
        -- apply list_elem_of_singleton in He. eauto.
Qed.

Lemma unresolved_pass_stores_nothing_witness :
  memory_tier (after Init blocked_offline_page) = None ∧
  session_tier (after Init blocked_offline_page) = None.
Proof.
  destruct (unresolved_pass_stores_nothing blocked_offline_page eq_refl)
    as (_ & _ & Hm & Hs & _).
  exact (conj Hm Hs).
Defined.
